(** * TranscriptAPI: a shallow embedding of [transcript.py] and [app.py]

    The repository holds two variants of one Flask service.  Both define
    [rate_limit_check], [extract_video_id], [fetch_transcript] and
    [get_video_metadata]; [transcript.py] also serves [/api/batch].
    What the two files share word for word is embedded once; what differs
    lives in [Module Transcript] and [Module App].

    Conventions of the embedding.
    - A Python [str] is a [string] whose characters are the code points
      0..255.
    - [time.time()] readings and [REQUEST_DELAY] are exact rationals, in
      seconds; float rounding is not modelled.
    - An exception is represented by its message, [str(e)].
    - [int] keeps the interpreter's default limit on the digits it
      converts, [int_max_str_digits].
    - The transcript provider, the HTTP fetch and the HTML parser are
      inputs: the embedding takes their results as arguments. *)

From Stdlib Require Import String Ascii List ZArith NArith QArith Lqa Lia Bool.
From Stdlib Require Import DecimalString DecimalN.
From Stdlib Require DecimalFacts.
Import ListNotations.
Close Scope Q_scope.
Set Warnings "-register-all".
Local Open Scope string_scope.

(** ** Python string primitives *)

(** [str.isspace] on one character, which is also the class [\s] of [re]
    on [str] patterns: TAB..CR, FS..US, SPACE, NEL and NBSP. *)
Definition isspace (c : ascii) : bool :=
  let n := N_of_ascii c in
  (((9 <=? n) && (n <=? 13)) || ((28 <=? n) && (n <=? 32))
   || (n =? 133) || (n =? 160))%N.

(** The class [\d] below code point 256: the ten ASCII digits. *)
Definition isdigit (c : ascii) : bool :=
  let n := N_of_ascii c in ((48 <=? n) && (n <=? 57))%N.

Definition newline : ascii := "010"%char.

(** [sub in s] *)
Fixpoint contains (sub s : string) : bool :=
  prefix sub s
  || match s with
     | EmptyString => false
     | String _ s' => contains sub s'
     end.

(** [s.split(sep)] for a non-empty [sep]: occurrences are found from the
    left and do not overlap; [skip] counts the characters of a found
    separator still to pass over. *)
Fixpoint split_from (sep : string) (skip : nat) (s : string) : list string :=
  match s with
  | EmptyString => [EmptyString]
  | String c s' =>
      match skip with
      | S n => split_from sep n s'
      | O =>
          if prefix sep s
          then EmptyString :: split_from sep (String.length sep - 1) s'
          else match split_from sep 0 s' with
               | part :: parts => String c part :: parts
               | [] => [String c EmptyString]
               end
      end
  end.

Definition split (sep s : string) : list string := split_from sep 0 s.

(** [parts[0]] and [parts[-1]] of a [split] result, which is never empty. *)
Definition first_part (parts : list string) : string := hd EmptyString parts.
Definition last_part (parts : list string) : string := last parts EmptyString.

(** [sep.join(parts)] *)
Definition join (sep : string) (parts : list string) : string :=
  String.concat sep parts.

(** [s.replace(old, new)] for a non-empty [old]. *)
Definition replace (old new s : string) : string := join new (split old s).

Fixpoint lstrip (s : string) : string :=
  match s with
  | EmptyString => EmptyString
  | String c s' => if isspace c then lstrip s' else s
  end.

Fixpoint rstrip (s : string) : string :=
  match s with
  | EmptyString => EmptyString
  | String c s' =>
      match rstrip s' with
      | EmptyString => if isspace c then EmptyString else String c EmptyString
      | r => String c r
      end
  end.

(** [s.strip()] *)
Definition strip (s : string) : string := rstrip (lstrip s).

(** [s[:n]] *)
Definition slice_to (n : nat) (s : string) : string := substring 0 n s.

(** [s.startswith(p)] *)
Definition startswith (p s : string) : bool := prefix p s.

(** Truth value of a [str]. *)
Definition nonempty (s : string) : bool :=
  match s with EmptyString => false | String _ _ => true end.

(** [str(n)] / an f-string field, for an [n] of at most
    [int_max_str_digits] digits, which is every [n] that [int] gives. *)
Definition str_of_int (n : N) : string := NilZero.string_of_uint (N.to_uint n).

(** ** The fragment of [re] the two files use

    Patterns are data, as in the source.  Repetition is only ever applied
    to a one-character class there, so [Star] and [LazyStar] take a class.
    Matching is by backtracking with a continuation, which gives Python's
    priorities: the left alternative first, a greedy repetition longest
    first, a lazy one shortest first. *)

Inductive regex : Type :=
| Lit (c : ascii)
| Class (p : ascii -> bool)
| Eps
| Seq (r1 r2 : regex)
| Alt (r1 r2 : regex)
| Star (p : ascii -> bool)
| LazyStar (p : ascii -> bool)
| Group (i : nat) (r : regex).

(** [x+], [r?], [x{n}] and a literal word. *)
Definition Plus (p : ascii -> bool) : regex := Seq (Class p) (Star p).
Definition Opt (r : regex) : regex := Alt r Eps.

Fixpoint Times (n : nat) (p : ascii -> bool) : regex :=
  match n with
  | O => Eps
  | S n' => Seq (Class p) (Times n' p)
  end.

Fixpoint Word (w : string) : regex :=
  match w with
  | EmptyString => Eps
  | String c w' => Seq (Lit c) (Word w')
  end.

(** [.] matches anything but a line feed. *)
Definition dot (c : ascii) : bool := negb (Ascii.eqb c newline).

Definition one_of (cs : string) (c : ascii) : bool :=
  existsb (Ascii.eqb c) (list_ascii_of_string cs).

(** Captured groups, the latest capture of a group first. *)
Definition captures : Type := list (nat * string).

Fixpoint group (g : captures) (i : nat) : option string :=
  match g with
  | [] => None
  | (j, s) :: g' => if Nat.eqb i j then Some s else group g' i
  end.

(** What a match consumed: the part of [s] before its suffix [rest]. *)
Definition consumed (s rest : string) : string :=
  substring 0 (String.length s - String.length rest) s.

Section Matching.
Context {R : Type}.

Fixpoint star_greedy (p : ascii -> bool) (s : string)
    (k : string -> option R) : option R :=
  match s with
  | String c s' =>
      if p c
      then match star_greedy p s' k with
           | Some r => Some r
           | None => k s
           end
      else k s
  | EmptyString => k s
  end.

Fixpoint star_lazy (p : ascii -> bool) (s : string)
    (k : string -> option R) : option R :=
  match k s with
  | Some r => Some r
  | None =>
      match s with
      | String c s' => if p c then star_lazy p s' k else None
      | EmptyString => None
      end
  end.

Fixpoint rmatch (r : regex) (s : string) (g : captures)
    (k : string -> captures -> option R) : option R :=
  match r with
  | Lit c =>
      match s with
      | String c' s' => if Ascii.eqb c c' then k s' g else None
      | EmptyString => None
      end
  | Class p =>
      match s with
      | String c' s' => if p c' then k s' g else None
      | EmptyString => None
      end
  | Eps => k s g
  | Seq r1 r2 => rmatch r1 s g (fun s' g' => rmatch r2 s' g' k)
  | Alt r1 r2 =>
      match rmatch r1 s g k with
      | Some x => Some x
      | None => rmatch r2 s g k
      end
  | Star p => star_greedy p s (fun s' => k s' g)
  | LazyStar p => star_lazy p s (fun s' => k s' g)
  | Group i r' => rmatch r' s g (fun s' g' => k s' ((i, consumed s s') :: g'))
  end.
End Matching.

(** [re.match(r, s)]: the groups of a match at the start of [s]. *)
Definition re_match (r : regex) (s : string) : option captures :=
  rmatch r s [] (fun _ g => Some g).

(** [re.search(r, s)]: the groups of the leftmost match. *)
Fixpoint re_search (r : regex) (s : string) : option captures :=
  match re_match r s with
  | Some g => Some g
  | None =>
      match s with
      | String _ s' => re_search r s'
      | EmptyString => None
      end
  end.

(** Length of the match of [r] at the start of [s]. *)
Definition match_length (r : regex) (s : string) : option nat :=
  rmatch r s [] (fun rest _ => Some (String.length s - String.length rest)).

(** [re.sub(r, repl, s)] for a pattern that matches no empty string, which
    holds of both patterns it is called with (see [bracket_never_empty] and
    [spaces_never_empty]).  [skip] counts the characters of the current
    match still to drop. *)
Fixpoint re_sub_from (r : regex) (repl : string) (skip : nat) (s : string)
    : string :=
  match s with
  | EmptyString => EmptyString
  | String c s' =>
      match skip with
      | S n => re_sub_from r repl n s'
      | O =>
          match match_length r s with
          | Some (S n) => repl ++ re_sub_from r repl n s'
          | _ => String c (re_sub_from r repl 0 s')
          end
      end
  end.

Definition re_sub (r : regex) (repl s : string) : string :=
  re_sub_from r repl 0 s.

(** ** Transcript cleaning (both files, in [fetch_transcript]) *)

(** [r'\[.*?\]'] *)
Definition bracket_pattern : regex :=
  Seq (Lit "[") (Seq (LazyStar dot) (Lit "]")).

(** [r'\s+'] *)
Definition spaces_pattern : regex := Plus isspace.

(** [re.sub(r'\[.*?\]', '', t)] then [re.sub(r'\s+', ' ', t).strip()]. *)
Definition clean_transcript (transcript_text : string) : string :=
  let transcript_text := re_sub bracket_pattern "" transcript_text in
  strip (re_sub spaces_pattern " " transcript_text).

(** The same three steps written out directly: an opening bracket starts
    an annotation when a closing bracket follows before the next line
    feed, and the annotation runs up to the first closing bracket. *)
Fixpoint closes (s : string) : bool :=
  match s with
  | EmptyString => false
  | String c s' =>
      if Ascii.eqb c "]" then true
      else if Ascii.eqb c newline then false
      else closes s'
  end.

Fixpoint remove_bracketed (inside : bool) (s : string) : string :=
  match s with
  | EmptyString => EmptyString
  | String c s' =>
      if inside
      then remove_bracketed (negb (Ascii.eqb c "]")) s'
      else if Ascii.eqb c "[" && closes s'
           then remove_bracketed true s'
           else String c (remove_bracketed false s')
  end.

(** Every maximal run of whitespace becomes one space; [in_run] tells
    that the previous character was whitespace. *)
Fixpoint collapse_spaces (in_run : bool) (s : string) : string :=
  match s with
  | EmptyString => EmptyString
  | String c s' =>
      if isspace c
      then if in_run then collapse_spaces true s'
           else String " " (collapse_spaces true s')
      else String c (collapse_spaces false s')
  end.

(** ** Values shared by the handlers *)

(** What a call into the outside world, or a [try] block, comes to: a
    value, or an exception with its message. *)
Inductive outcome (A : Type) : Type :=
| Returns (a : A)
| Raises (msg : string).
Arguments Returns {A} a.
Arguments Raises {A} msg.

(** A decoded JSON document, as [json.loads] and [request.get_json]
    return it; an object is a Python [dict], its keys distinct. *)
Inductive json : Type :=
| JNull
| JBool (b : bool)
| JNum (q : Q)
| JStr (s : string)
| JArr (items : list json)
| JObj (fields : list (string * json)).

(** Truth value of a decoded document. *)
Definition truthy (v : json) : bool :=
  match v with
  | JNull => false
  | JBool b => b
  | JNum q => negb (Qeq_bool q 0)
  | JStr s => nonempty s
  | JArr items => match items with [] => false | _ :: _ => true end
  | JObj fields => match fields with [] => false | _ :: _ => true end
  end.

(** [d.get(key)] *)
Fixpoint lookup (key : string) (fields : list (string * json)) : option json :=
  match fields with
  | [] => None
  | (k, v) :: rest => if String.eqb key k then Some v else lookup key rest
  end.

(** Sequencing inside a [try] block: the first exception ends it. *)
Definition bind {A B : Type} (x : outcome A) (f : A -> outcome B) : outcome B :=
  match x with
  | Returns a => f a
  | Raises msg => Raises msg
  end.

Notation "x <- e ;; k" := (bind e (fun x => k))
  (at level 61, e at next level, right associativity).

(** [sys.get_int_max_str_digits()]: the interpreter's default, which
    neither file changes. *)
Definition int_max_str_digits : nat := 4300.

(** [int(s)] on a string of ASCII digits: the digits are counted, leading
    zeros too, and more than [int_max_str_digits] of them raise
    [ValueError].  (On anything else 0, which the callers never pass.) *)
Definition int_of_str (s : string) : outcome N :=
  match NilEmpty.uint_of_string s with
  | Some d =>
      if Nat.ltb int_max_str_digits (String.length s)
      then Raises ("Exceeds the limit ("
                   ++ str_of_int (N.of_nat int_max_str_digits)
                   ++ " digits) for integer string conversion: value has "
                   ++ str_of_int (N.of_nat (String.length s))
                   ++ " digits; use sys.set_int_max_str_digits() "
                   ++ "to increase the limit")
      else Returns (N.of_uint d)
  | None => Returns 0%N
  end.

(** [time.sleep(secs)]: a negative length raises [ValueError]. *)
Definition time_sleep (secs : Q) : outcome unit :=
  match (secs ?= 0)%Q with
  | Lt => Raises "sleep length must be non-negative"
  | _ => Returns tt
  end.

(** ** Rate limiter (both files, lines 26-45) *)

(** [now - ts < 60] *)
Definition within_minute (now ts : Q) : bool :=
  match (now - ts ?= 60)%Q with
  | Lt => true
  | _ => false
  end.

Section RateLimiter.
Variable MAX_REQUESTS_PER_MINUTE : Z.

(** The global [request_timestamps] is threaded through: the call takes
    the list and [time.time()], and gives back its answer and the list. *)
Definition rate_limit_check (now : Q) (request_timestamps : list Q)
    : bool * list Q :=
  let request_timestamps := filter (within_minute now) request_timestamps in
  if (MAX_REQUESTS_PER_MINUTE <=? Z.of_nat (List.length request_timestamps))%Z
  then (false, request_timestamps)
  else (true, (request_timestamps ++ [now])%list).

(** A run of calls at the given clock readings: the answers, in order,
    and the list left behind. *)
Fixpoint calls (times : list Q) (request_timestamps : list Q)
    : list bool * list Q :=
  match times with
  | [] => ([], request_timestamps)
  | now :: later =>
      let (admitted, request_timestamps) :=
        rate_limit_check now request_timestamps in
      let (answers, request_timestamps) := calls later request_timestamps in
      (admitted :: answers, request_timestamps)
  end.

(** The lists the process can hold: empty at import, and afterwards only
    what a call leaves. *)
Inductive reachable : list Q -> Prop :=
| reachable_start : reachable []
| reachable_call (now : Q) (request_timestamps : list Q) :
    reachable request_timestamps ->
    reachable (snd (rate_limit_check now request_timestamps)).
End RateLimiter.

(** Timestamps a check at [now] drops. *)
Definition expired (now : Q) (request_timestamps : list Q) : list Q :=
  filter (fun ts => negb (within_minute now ts)) request_timestamps.

(** ** Video id extraction: what both files share *)

Definition double_quote : ascii := "034"%char.

(** The two negated classes of the fallback pattern: anything but a
    slash; anything but a double quote, [&], [?], a slash or whitespace. *)
Definition not_slash (c : ascii) : bool := negb (Ascii.eqb c "/").
Definition id_char (c : ascii) : bool :=
  negb (Ascii.eqb c double_quote || one_of "&?/" c || isspace c).

(** The fallback pattern: [youtube.com/] followed by one of
    [[^/]+/.+/], [(?:v|e(?:mbed)?)/] and [.*[?&]v=], or else [youtu.be/];
    then group 1, eleven characters of the second class. *)
Definition video_id_pattern : regex :=
  Seq
    (Alt
       (Seq (Word "youtube.com/")
          (Alt (Seq (Plus not_slash) (Seq (Lit "/") (Seq (Plus dot) (Lit "/"))))
             (Alt (Seq (Alt (Lit "v") (Seq (Lit "e") (Opt (Word "mbed")))) (Lit "/"))
                (Seq (Star dot) (Seq (Class (one_of "?&")) (Word "v="))))))
       (Word "youtu.be/"))
    (Group 1 (Times 11 id_char)).

(** The four branches that pick the candidate id; [None] is Python's
    [None], when the fallback pattern finds nothing. *)
Definition candidate_id (youtube_url : string) : option string :=
  if contains "watch?v=" youtube_url
  then Some (first_part (split "&" (last_part (split "watch?v=" youtube_url))))
  else if contains "youtu.be/" youtube_url
  then Some (first_part (split "?" (last_part (split "youtu.be/" youtube_url))))
  else if contains "embed/" youtube_url
  then Some (first_part (split "?" (last_part (split "embed/" youtube_url))))
  else match re_search video_id_pattern youtube_url with
       | Some g => group g 1
       | None => None
       end.

(** ** Transcript provider *)

(** [YouTubeTranscriptApi]: each call gives the [text] fields of the items
    it returns, in order, or raises.  [get_transcript] takes the optional
    [languages] argument; a track of [list_transcripts] is represented by
    what its [fetch()] comes to. *)
Record transcript_api : Type := {
  get_transcript : string -> option (list string) -> outcome (list string);
  list_transcripts : string -> outcome (list (outcome (list string)))
}.

(** The loop of method 3: the first track that can be fetched is joined
    and ends the loop; [transcript_text] stays empty if there is none. *)
Fixpoint first_fetched (tracks : list (outcome (list string))) : string :=
  match tracks with
  | [] => EmptyString
  | Returns items :: _ => join " " items
  | Raises _ :: rest => first_fetched rest
  end.

(** A request the service sends out: a call of the provider
    ([get_transcript] with its [languages], [list_transcripts], the
    [fetch()] of the track at a position of the listing) or of
    [requests.get] with its URL.  A call that raises was sent too. *)
Inductive call : Type :=
| GetTranscript (video_id : string) (languages : option (list string))
| ListTranscripts (video_id : string)
| TrackFetch (video_id : string) (position : nat)
| RequestsGet (url : string).

(** The [fetch()] calls of the loop of method 3: one for each track from
    [position] on, up to the first that returns, where the loop ends. *)
Fixpoint fetches (video_id : string) (position : nat)
    (tracks : list (outcome (list string))) : list call :=
  match tracks with
  | [] => []
  | Returns _ :: _ => [TrackFetch video_id position]
  | Raises _ :: rest =>
      TrackFetch video_id position :: fetches video_id (S position) rest
  end.

(** The tail of [fetch_transcript], from [if transcript_text:] on. *)
Definition finish_transcript (transcript_text : string)
    : string * bool * string :=
  if nonempty transcript_text
  then (clean_transcript transcript_text, true, "")
  else ("", false, "No transcript text extracted").

(** ** Metadata scraping: what both files share *)

(** [(?:(\d+)U)?] for a unit letter [U], the digits in group [i]. *)
Definition component_pattern (i : nat) (unit : ascii) : regex :=
  Opt (Seq (Group i (Plus isdigit)) (Lit unit)).

(** [r'PT(?:(\d+)H)?(?:(\d+)M)?(?:(\d+)S)?'] *)
Definition duration_pattern : regex :=
  Seq (Word "PT")
    (Seq (component_pattern 1 "H")
       (Seq (component_pattern 2 "M") (component_pattern 3 "S"))).

(** [int(match.group(i)) if match.group(i) else 0] *)
Definition group_int (g : captures) (i : nat) : outcome N :=
  match group g i with
  | Some s => if nonempty s then int_of_str s else Returns 0%N
  | None => Returns 0%N
  end.

(** The three f-strings. *)
Definition render_duration (hours minutes seconds : N) : string :=
  if (0 <? hours)%N
  then str_of_int hours ++ "h " ++ str_of_int minutes ++ "m "
       ++ str_of_int seconds ++ "s"
  else if (0 <? minutes)%N
  then str_of_int minutes ++ "m " ++ str_of_int seconds ++ "s"
  else str_of_int seconds ++ "s".

(** The block guarded by
    [if duration_iso and duration_iso.startswith('PT')], for a string
    [duration_iso]: the value of [duration] after it ([duration] is
    "Unknown" before it), or the exception of the first [int] that
    raises. *)
Definition parse_duration (duration_iso : string) : outcome string :=
  if nonempty duration_iso && startswith "PT" duration_iso
  then match re_match duration_pattern duration_iso with
       | Some g =>
           hours <- group_int g 1 ;;
           minutes <- group_int g 2 ;;
           seconds <- group_int g 3 ;;
           Returns (render_duration hours minutes seconds)
       | None => Returns "Unknown"
       end
  else Returns "Unknown".

(** The same, from the [dict]: [data.get('duration', '')] may hold any
    JSON value, and [.startswith] exists on strings only. *)
Definition duration_of_object (fields : list (string * json)) : outcome string :=
  let duration_iso :=
    match lookup "duration" fields with Some v => v | None => JStr "" end in
  if truthy duration_iso
  then match duration_iso with
       | JStr s => parse_duration s
       | _ => Raises "AttributeError"
       end
  else Returns "Unknown".

(** [data.get('@type') == 'VideoObject'] *)
Definition is_video_object (fields : list (string * json)) : bool :=
  match lookup "@type" fields with
  | Some (JStr s) => String.eqb s "VideoObject"
  | _ => false
  end.

(** The loop over the [application/ld+json] scripts.  A script is what
    [json.loads(script.string)] comes to.  A failure inside the inner
    [try], be it [json.loads], [startswith] or [int] that raises, moves
    on to the next script; the first [VideoObject] whose block completes
    ends the loop. *)
Fixpoint scan_duration (json_scripts : list (outcome json)) : string :=
  match json_scripts with
  | [] => "Unknown"
  | Raises _ :: rest => scan_duration rest
  | Returns data :: rest =>
      let data :=
        match data with
        | JArr [] => JObj []
        | JArr (first :: _) => first
        | _ => data
        end in
      match data with
      | JObj fields =>
          if is_video_object fields
          then match duration_of_object fields with
               | Returns duration => duration
               | Raises _ => scan_duration rest
               end
          else scan_duration rest
      | _ => scan_duration rest
      end
  end.

(** A parsed watch page, as far as the scraper looks at it: for each of
    the two [meta] tags whether [soup.find] finds it and what its
    [content] attribute holds; the text of the [title] element; the
    JSON-LD scripts. *)
Record soup : Type := {
  og_title : option (option string);
  title_element : option string;
  og_description : option (option string);
  json_scripts : list (outcome json)
}.

(** The returned [dict]. *)
Record metadata : Type := {
  title : string;
  description : string;
  duration : string;
  url : string
}.

Definition watch_url (video_id : string) : string :=
  "https://www.youtube.com/watch?v=" ++ video_id.

(** The [dict] of the outer [except] branch. *)
Definition unknown_metadata (video_id : string) : metadata :=
  {| title := "Unknown Title"; description := ""; duration := "Unknown";
     url := watch_url video_id |}.

(** [description]: the [content] of [og:description], else empty. *)
Definition page_description (page : soup) : string :=
  match og_description page with
  | Some (Some content) => content
  | _ => ""
  end.

(** ** What the routes share *)

(** A Python [dict] with string keys, in insertion order: [d[key] = value]
    replaces the value of a key in place or adds the key at the end;
    [d.update(other)] does so for every item of [other]. *)
Fixpoint dict_set (key : string) (value : json)
    (d : list (string * json)) : list (string * json) :=
  match d with
  | [] => [(key, value)]
  | (k, v) :: rest =>
      if String.eqb key k then (k, value) :: rest
      else (k, v) :: dict_set key value rest
  end.

Definition dict_update (d other : list (string * json))
    : list (string * json) :=
  fold_left (fun d kv => dict_set (fst kv) (snd kv) d) other d.

(** The [dict] [get_video_metadata] returns. *)
Definition metadata_dict (m : metadata) : list (string * json) :=
  [("title", JStr (title m)); ("description", JStr (description m));
   ("duration", JStr (duration m)); ("url", JStr (url m))].

(** A response of the single-transcript route: the status code, the
    [dict] given to [jsonify], and the requests sent out on the way, in
    order. *)
Record reply : Type := {
  code : Z;
  payload : list (string * json);
  calls_made : list call
}.

Definition refusal (status : Z) (error : string) : reply :=
  {| code := status;
     payload := [("success", JBool false); ("error", JStr error)];
     calls_made := [] |}.

(** [len(x)] and an [int] as JSON numbers. *)
Definition json_nat (n : nat) : json := JNum (inject_Z (Z.of_nat n)).
Definition json_int (z : Z) : json := JNum (inject_Z z).

(** [key in data] for a list: some item equals the string. *)
Definition holds_string (key : string) (items : list json) : bool :=
  existsb (fun v => match v with
                    | JStr s => String.eqb s key
                    | _ => false
                    end) items.

(** The part of [get_transcript] after [video_id] has passed
    [if not video_id]: fetch, assemble [response_data], add the metadata
    when asked, and answer 404 or 200.  [fetch] and [scrape] are the
    file's [fetch_transcript] and [get_video_metadata], each giving the
    requests it sent out and its result; the route sends none itself. *)
Definition transcript_response
    (fetch : string -> list call * (string * bool * string))
    (scrape : string -> list call * metadata)
    (utcnow : string) (youtube_url include_metadata : json)
    (video_id : string) : reply :=
  let '(transcript, transcript_success, transcript_error) :=
    snd (fetch video_id) in
  let response_data :=
    [("success", JBool transcript_success); ("video_id", JStr video_id);
     ("url", youtube_url); ("transcript", JStr transcript);
     ("transcript_length", json_nat (String.length transcript));
     ("timestamp", JStr utcnow)] in
  let response_data :=
    if truthy include_metadata
    then dict_update response_data (metadata_dict (snd (scrape video_id)))
    else response_data in
  let made :=
    (fst (fetch video_id)
     ++ if truthy include_metadata then fst (scrape video_id) else [])%list in
  if negb transcript_success
  then {| code := 404;
          payload := dict_set "error" (JStr transcript_error) response_data;
          calls_made := made |}
  else {| code := 200; payload := response_data; calls_made := made |}.

(** [get_transcript], which the two files share but for two messages:
    the rate limiter, the body, the [url] key, the video id, and then
    [transcript_response].  [extract] is the file's [extract_video_id] on
    a JSON value, [max] its [MAX_REQUESTS_PER_MINUTE]. *)
Definition transcript_route (max : Z) (missing_message invalid_message : string)
    (extract : json -> option string)
    (fetch : string -> list call * (string * bool * string))
    (scrape : string -> list call * metadata)
    (type_error : json -> string)
    (request_timestamps : list Q) (now : Q) (utcnow : string)
    (get_json : outcome json) : list Q * reply :=
  let (admitted, request_timestamps) :=
    rate_limit_check max now request_timestamps in
  let missing := refusal 400 missing_message in
  let crash (e : string) := refusal 500 ("Internal server error: " ++ e) in
  (request_timestamps,
   if negb admitted
   then {| code := 429;
           payload :=
             [("success", JBool false);
              ("error", JStr "Rate limit exceeded. Try again later.");
              ("rate_limit",
               JObj [("max_requests_per_minute", json_int max);
                     ("current_requests",
                      json_nat (List.length request_timestamps))])];
           calls_made := [] |}
   else match get_json with
        | Raises e => crash e
        | Returns data =>
            if negb (truthy data) then missing
            else match data with
                 | JObj fields =>
                     match lookup "url" fields with
                     | None => missing
                     | Some youtube_url =>
                         let include_metadata :=
                           match lookup "include_metadata" fields with
                           | Some v => v
                           | None => JBool true
                           end in
                         match extract youtube_url with
                         | Some (String c id') =>
                             transcript_response fetch scrape utcnow
                               youtube_url include_metadata (String c id')
                         | _ => refusal 400 invalid_message
                         end
                     end
                 | JArr items =>
                     if holds_string "url" items then crash (type_error data)
                     else missing
                 | JStr s =>
                     if contains "url" s then crash (type_error data)
                     else missing
                 | _ => crash (type_error data)
                 end
        end).

(** ** [transcript.py] *)

Module Transcript.

(** [extract_video_id] (lines 47-63): the candidate is returned as it is. *)
Definition extract_video_id (youtube_url : string) : option string :=
  candidate_id youtube_url.

Section Service.
Variable REQUEST_DELAY : Q.
Variable MAX_REQUESTS_PER_MINUTE : Z.
Variable YouTubeTranscriptApi : transcript_api.
(** [requests.get(url, ...)], [raise_for_status()] and the parse. *)
Variable requests_get : string -> outcome soup.
(** The interpreter's wording of the [TypeError] that [in] or a
    subscript raises on a request body that is not an object. *)
Variable type_error : json -> string.

(** [fetch_transcript] (lines 65-114). *)
Definition fetch_transcript (video_id : string) : string * bool * string :=
  match time_sleep REQUEST_DELAY with
  | Raises error_msg => ("", false, error_msg)
  | Returns _ =>
      match get_transcript YouTubeTranscriptApi video_id None with
      | Returns transcript_list => finish_transcript (join " " transcript_list)
      | Raises e1 =>
          match get_transcript YouTubeTranscriptApi video_id
                  (Some ["en"; "en-US"; "en-GB"]) with
          | Returns transcript_list =>
              finish_transcript (join " " transcript_list)
          | Raises e2 =>
              match list_transcripts YouTubeTranscriptApi video_id with
              | Returns transcript_list_obj =>
                  finish_transcript (first_fetched transcript_list_obj)
              | Raises e3 =>
                  ("", false, "No transcript available: " ++ slice_to 100 e1)
              end
          end
      end
  end.

(** [title] (lines 131-135): [og:title] or nothing. *)
Definition page_title (page : soup) : string :=
  match og_title page with
  | Some (Some content) => content
  | Some None => "Unknown Title"
  | None => "Unknown Title"
  end.

(** [get_video_metadata] (lines 116-191). *)
Definition get_video_metadata (video_id : string) : metadata :=
  match time_sleep REQUEST_DELAY with
  | Raises _ => unknown_metadata video_id
  | Returns _ =>
      let url := watch_url video_id in
      match requests_get url with
      | Raises _ => unknown_metadata video_id
      | Returns page =>
          {| title := page_title page;
             description := page_description page;
             duration := scan_duration (json_scripts page);
             url := url |}
      end
  end.

(** [fetch_transcript] once more, this time with the requests it sends
    out, in order: none when the pause raises. *)
Definition fetch_transcript_log (video_id : string)
    : list call * (string * bool * string) :=
  match time_sleep REQUEST_DELAY with
  | Raises error_msg => ([], ("", false, error_msg))
  | Returns _ =>
      let default := GetTranscript video_id None in
      match get_transcript YouTubeTranscriptApi video_id None with
      | Returns transcript_list =>
          ([default], finish_transcript (join " " transcript_list))
      | Raises e1 =>
          let languages :=
            GetTranscript video_id (Some ["en"; "en-US"; "en-GB"]) in
          match get_transcript YouTubeTranscriptApi video_id
                  (Some ["en"; "en-US"; "en-GB"]) with
          | Returns transcript_list =>
              ([default; languages],
               finish_transcript (join " " transcript_list))
          | Raises e2 =>
              let listing := ListTranscripts video_id in
              match list_transcripts YouTubeTranscriptApi video_id with
              | Returns transcript_list_obj =>
                  (([default; languages; listing]
                    ++ fetches video_id 0 transcript_list_obj)%list,
                   finish_transcript (first_fetched transcript_list_obj))
              | Raises e3 =>
                  ([default; languages; listing],
                   ("", false, "No transcript available: " ++ slice_to 100 e1))
              end
          end
      end
  end.

(** [get_video_metadata] with the requests it sends out: the one
    [requests.get], unless the pause raises. *)
Definition get_video_metadata_log (video_id : string) : list call * metadata :=
  match time_sleep REQUEST_DELAY with
  | Raises _ => ([], unknown_metadata video_id)
  | Returns _ =>
      let url := watch_url video_id in
      ([RequestsGet url],
       match requests_get url with
       | Raises _ => unknown_metadata video_id
       | Returns page =>
           {| title := page_title page;
              description := page_description page;
              duration := scan_duration (json_scripts page);
              url := url |}
       end)
  end.

(** What the batch handler does besides answering. *)
Inductive effect : Type :=
| Extracted (url : json)
| Fetched (video_id : string)
| Slept (secs : Q).

(** [extract_video_id(url)] on an element of the request: anything but a
    string raises inside the function's [try] and comes back as [None]. *)
Definition extract_from (url : json) : option string :=
  match url with
  | JStr youtube_url => extract_video_id youtube_url
  | _ => None
  end.

Definition json_len (n : nat) : json := JNum (inject_Z (Z.of_nat n)).

(** The [for url in urls] loop (lines 310-336); [results] and the effects
    so far are carried along.  An exception leaves the loop. *)
Fixpoint process_urls (urls : list json) (results : list json)
    (done : list effect) : outcome (list json) * list effect :=
  match urls with
  | [] => (Returns results, done)
  | url :: rest =>
      let done := (done ++ [Extracted url])%list in
      match extract_from url with
      | Some (String c id') =>
          let video_id := String c id' in
          let '(transcript, success, error) := fetch_transcript video_id in
          let result :=
            JObj ([("url", url); ("video_id", JStr video_id);
                   ("success", JBool success); ("transcript", JStr transcript);
                   ("transcript_length", json_len (String.length transcript))]
                  ++ (if success then [] else [("error", JStr error)]))%list in
          let done := (done ++ [Fetched video_id])%list in
          match time_sleep (REQUEST_DELAY * 2) with
          | Returns _ =>
              process_urls rest (results ++ [result])%list
                (done ++ [Slept (REQUEST_DELAY * 2)])%list
          | Raises e => (Raises e, done)
          end
      | _ =>
          process_urls rest
            (results ++ [JObj [("url", url); ("success", JBool false);
                               ("error", JStr "Invalid YouTube URL")]])%list
            done
      end
  end.

(** A response: [jsonify(...)] with its status code, and the effects of
    the per-URL loop. *)
Record response : Type := {
  status : Z;
  body : json;
  effects : list effect
}.

Definition failure (code : Z) (error : string) : response :=
  {| status := code;
     body := JObj [("success", JBool false); ("error", JStr error)];
     effects := [] |}.

(** [data['urls']] once [data] is truthy and holds the key. *)
Definition validate_and_run (utcnow : string) (urls : json) : response :=
  match urls with
  | JArr items =>
      if Nat.eqb (List.length items) 0
      then failure 400 "URLs must be a non-empty array"
      else if (5 <? List.length items)%nat
      then failure 400 "Batch size limited to 5 URLs"
      else match process_urls items [] [] with
           | (Returns results, done) =>
               {| status := 200;
                  body := JObj [("success", JBool true);
                                ("total_processed", json_len (List.length results));
                                ("results", JArr results);
                                ("timestamp", JStr utcnow)];
                  effects := done |}
           | (Raises e, done) =>
               {| status := 500;
                  body := JObj [("success", JBool false);
                                ("error", JStr ("Internal server error: " ++ e))];
                  effects := done |}
           end
  | _ => failure 400 "URLs must be a non-empty array"
  end.

(** [get_batch_transcripts] (lines 274-350).  Inputs: the global list,
    [time.time()], [datetime.utcnow().isoformat()] and what
    [request.get_json()] comes to.  Output: the global list and the
    response. *)
Definition get_batch_transcripts (request_timestamps : list Q) (now : Q)
    (utcnow : string) (get_json : outcome json) : list Q * response :=
  let (admitted, request_timestamps) :=
    rate_limit_check MAX_REQUESTS_PER_MINUTE now request_timestamps in
  let missing := failure 400 "Missing URLs array in request body" in
  let crash (e : string) := failure 500 ("Internal server error: " ++ e) in
  (request_timestamps,
   if negb admitted
   then failure 429 "Rate limit exceeded. Try again later."
   else match get_json with
        | Raises e => crash e
        | Returns data =>
            if negb (truthy data) then missing
            else match data with
                 | JObj fields =>
                     match lookup "urls" fields with
                     | Some urls => validate_and_run utcnow urls
                     | None => missing
                     end
                 | JArr items =>
                     if existsb (fun v => match v with
                                          | JStr s => String.eqb s "urls"
                                          | _ => false
                                          end) items
                     then crash (type_error data)
                     else missing
                 | JStr s =>
                     if contains "urls" s then crash (type_error data)
                     else missing
                 | _ => crash (type_error data)
                 end
        end).

(** [get_transcript] (lines 205-272). *)
Definition get_transcript (request_timestamps : list Q) (now : Q)
    (utcnow : string) (get_json : outcome json) : list Q * reply :=
  transcript_route MAX_REQUESTS_PER_MINUTE
    "Missing YouTube URL in request body" "Invalid YouTube URL"
    extract_from fetch_transcript_log get_video_metadata_log type_error
    request_timestamps now utcnow get_json.

(** [get_status] (lines 352-361); it reads the global list as it is. *)
Definition get_status (request_timestamps : list Q) (utcnow : string)
    : list (string * json) :=
  [("status", JStr "operational");
   ("current_load", json_nat (List.length request_timestamps));
   ("max_requests_per_minute", json_int MAX_REQUESTS_PER_MINUTE);
   ("request_delay", JNum REQUEST_DELAY);
   ("timestamp", JStr utcnow)].

End Service.
End Transcript.

(** ** [app.py] *)

Module App.

(** [extract_video_id] (lines 47-73): the candidate is kept only when
    [video_id and len(video_id) == 11]. *)
Definition extract_video_id (youtube_url : string) : option string :=
  match candidate_id youtube_url with
  | Some video_id =>
      if nonempty video_id && Nat.eqb (String.length video_id) 11
      then Some video_id
      else None
  | None => None
  end.

Section Service.
Variable REQUEST_DELAY : Q.
Variable YouTubeTranscriptApi : transcript_api.
Variable requests_get : string -> outcome soup.

(** [fetch_transcript] (lines 75-140). *)
Definition fetch_transcript (video_id : string) : string * bool * string :=
  match time_sleep REQUEST_DELAY with
  | Raises error_msg => ("", false, error_msg)
  | Returns _ =>
      match get_transcript YouTubeTranscriptApi video_id None with
      | Returns transcript_list => finish_transcript (join " " transcript_list)
      | Raises e1 =>
          match get_transcript YouTubeTranscriptApi video_id
                  (Some ["en"; "en-US"; "en-GB"; "auto"]) with
          | Returns transcript_list =>
              finish_transcript (join " " transcript_list)
          | Raises e2 =>
              match list_transcripts YouTubeTranscriptApi video_id with
              | Returns available_transcripts =>
                  let transcript_text := first_fetched available_transcripts in
                  if negb (nonempty transcript_text)
                  then ("", false, "No accessible transcripts found")
                  else finish_transcript transcript_text
              | Raises e3 =>
                  ("", false, "No transcript available: " ++ slice_to 100 e1)
              end
          end
      end
  end.

(** [title] (lines 162-168): [og:title], else the [title] element with
    every [" - YouTube"] replaced by nothing and then stripped. *)
Definition page_title (page : soup) : string :=
  match og_title page with
  | Some (Some content) => content
  | Some None => "Unknown Title"
  | None =>
      match title_element page with
      | Some text => strip (replace " - YouTube" "" text)
      | None => "Unknown Title"
      end
  end.

(** [get_video_metadata] (lines 142-226). *)
Definition get_video_metadata (video_id : string) : metadata :=
  match time_sleep REQUEST_DELAY with
  | Raises _ => unknown_metadata video_id
  | Returns _ =>
      let url := watch_url video_id in
      match requests_get url with
      | Raises _ => unknown_metadata video_id
      | Returns page =>
          {| title := page_title page;
             description := page_description page;
             duration := scan_duration (json_scripts page);
             url := url |}
      end
  end.

(** [fetch_transcript] once more, this time with the requests it sends
    out, in order: none when the pause raises. *)
Definition fetch_transcript_log (video_id : string)
    : list call * (string * bool * string) :=
  match time_sleep REQUEST_DELAY with
  | Raises error_msg => ([], ("", false, error_msg))
  | Returns _ =>
      let default := GetTranscript video_id None in
      match get_transcript YouTubeTranscriptApi video_id None with
      | Returns transcript_list =>
          ([default], finish_transcript (join " " transcript_list))
      | Raises e1 =>
          let languages :=
            GetTranscript video_id (Some ["en"; "en-US"; "en-GB"; "auto"]) in
          match get_transcript YouTubeTranscriptApi video_id
                  (Some ["en"; "en-US"; "en-GB"; "auto"]) with
          | Returns transcript_list =>
              ([default; languages],
               finish_transcript (join " " transcript_list))
          | Raises e2 =>
              let listing := ListTranscripts video_id in
              match list_transcripts YouTubeTranscriptApi video_id with
              | Returns available_transcripts =>
                  let transcript_text := first_fetched available_transcripts in
                  (([default; languages; listing]
                    ++ fetches video_id 0 available_transcripts)%list,
                   if negb (nonempty transcript_text)
                   then ("", false, "No accessible transcripts found")
                   else finish_transcript transcript_text)
              | Raises e3 =>
                  ([default; languages; listing],
                   ("", false, "No transcript available: " ++ slice_to 100 e1))
              end
          end
      end
  end.

(** [get_video_metadata] with the requests it sends out: the one
    [requests.get], unless the pause raises. *)
Definition get_video_metadata_log (video_id : string) : list call * metadata :=
  match time_sleep REQUEST_DELAY with
  | Raises _ => ([], unknown_metadata video_id)
  | Returns _ =>
      let url := watch_url video_id in
      ([RequestsGet url],
       match requests_get url with
       | Raises _ => unknown_metadata video_id
       | Returns page =>
           {| title := page_title page;
              description := page_description page;
              duration := scan_duration (json_scripts page);
              url := url |}
       end)
  end.

Variable MAX_REQUESTS_PER_MINUTE : Z.
Variable type_error : json -> string.
(** [os.getenv('FLASK_ENV', 'production')] *)
Variable FLASK_ENV : string.

(** [extract_video_id(youtube_url)] on the [url] of the body: anything
    but a string raises inside the function's [try]. *)
Definition extract_from (youtube_url : json) : option string :=
  match youtube_url with
  | JStr s => extract_video_id s
  | _ => None
  end.

(** The 400 message for a body without [url]; it quotes a sample body,
    [url] and [youtube_url_here] each between double quotes. *)
Definition missing_url_message : string :=
  "Missing YouTube URL in request body. Send: {"
  ++ String double_quote "url" ++ String double_quote ": "
  ++ String double_quote "youtube_url_here" ++ String double_quote "}".

(** [get_transcript] (lines 240-316).  The [except] around the metadata
    call has nothing to catch: [get_video_metadata] returns in every
    case. *)
Definition get_transcript (request_timestamps : list Q) (now : Q)
    (utcnow : string) (get_json : outcome json) : list Q * reply :=
  transcript_route MAX_REQUESTS_PER_MINUTE
    missing_url_message
    "Invalid YouTube URL. Please provide a valid YouTube video URL."
    extract_from fetch_transcript_log get_video_metadata_log type_error
    request_timestamps now utcnow get_json.

(** [get_status] (lines 318-328). *)
Definition get_status (request_timestamps : list Q) (utcnow : string)
    : list (string * json) :=
  [("status", JStr "operational");
   ("current_load", json_nat (List.length request_timestamps));
   ("max_requests_per_minute", json_int MAX_REQUESTS_PER_MINUTE);
   ("request_delay", JNum REQUEST_DELAY);
   ("timestamp", JStr utcnow);
   ("environment", JStr FLASK_ENV)].

End Service.
End App.

(** ** Auxiliary measures used in the proofs *)

(** Number of characters up to and including the first closing bracket,
    when it comes before any line feed. *)
Fixpoint to_close (s : string) : option nat :=
  match s with
  | EmptyString => None
  | String c s' =>
      if Ascii.eqb "]" c then Some 1
      else if Ascii.eqb c newline then None
      else option_map S (to_close s')
  end.

(** Length of the whitespace run [s] starts with. *)
Fixpoint run_length (s : string) : nat :=
  match s with
  | EmptyString => 0
  | String c s' => if isspace c then S (run_length s') else 0
  end.

Fixpoint all_digits (s : string) : bool :=
  match s with
  | EmptyString => true
  | String c s' => isdigit c && all_digits s'
  end.

(** One component of an ISO-8601 duration as it is written: the number
    and its unit letter, or nothing. *)
Definition component (n : option N) (unit : ascii) : string :=
  match n with
  | Some n => str_of_int n ++ String unit ""
  | None => ""
  end.

Definition amount (n : option N) : N :=
  match n with Some n => n | None => 0%N end.

(** The capture a written component leaves in group [i]. *)
Definition capture_of (i : nat) (n : option N) : captures :=
  match n with Some n => [(i, str_of_int n)] | None => [] end.

(** What may follow when a component is left out: the end of the string,
    or a number with another unit letter. *)
Definition other_component (unit : ascii) (s : string) : Prop :=
  s = "" \/ exists n u rest,
              s = str_of_int n ++ String u rest
              /\ isdigit u = false /\ Ascii.eqb unit u = false.

(** A written component whose number [int] accepts: none, or one of at
    most [int_max_str_digits] digits. *)
Definition accepted (n : option N) : bool :=
  match n with
  | Some n => Nat.leb (String.length (str_of_int n)) int_max_str_digits
  | None => true
  end.

(** What [int(match.group(i)) if match.group(i) else 0] comes to on a
    written component. *)
Definition written_int (n : option N) : outcome N :=
  match n with
  | Some n => int_of_str (str_of_int n)
  | None => Returns 0%N
  end.

(** Captures of at most [L] characters each. *)
Definition short (L : nat) (g : captures) : Prop :=
  Forall (fun c => String.length (snd c) <= L) g.

(** A JSON-LD block of type [VideoObject] with the given duration. *)
Definition video_object (duration_iso : string) : json :=
  JObj [("@type", JStr "VideoObject"); ("duration", JStr duration_iso)].

(** Timestamps taken at [lo] or later. *)
Definition since (lo : Q) (request_timestamps : list Q) : list Q :=
  filter (Qle_bool lo) request_timestamps.

(** Number of admitted calls among the answers of a run. *)
Definition admissions (answers : list bool) : nat :=
  count_occ Bool.bool_dec answers true.

(** ** What a cleaned transcript looks like *)

(** No opening bracket is followed by a closing one on its line. *)
Fixpoint bracket_free (s : string) : bool :=
  match s with
  | EmptyString => true
  | String c s' => negb (Ascii.eqb c "[" && closes s') && bracket_free s'
  end.

Definition head_not_space (s : string) : bool :=
  match s with
  | EmptyString => true
  | String c _ => negb (isspace c)
  end.

(** Every whitespace character is a space that no whitespace follows. *)
Fixpoint spaced (s : string) : bool :=
  match s with
  | EmptyString => true
  | String c s' =>
      (if isspace c then Ascii.eqb c " " && head_not_space s' else true)
      && spaced s'
  end.

(** Every whitespace character is a space between two other characters:
    single, and neither first nor last. *)
Fixpoint single_spaced (s : string) : bool :=
  match s with
  | EmptyString => true
  | String c s' =>
      (if isspace c
       then Ascii.eqb c " " && head_not_space s' && nonempty s'
       else true)
      && single_spaced s'
  end.

Definition tidy (s : string) : bool := head_not_space s && single_spaced s.

(** ** Notions used to state what the routes do *)

(** A request sent for [video_id]: a call of the provider that names it,
    or a fetch of its watch page. *)
Definition sent_for (video_id : string) (c : call) : Prop :=
  match c with
  | GetTranscript v _ => v = video_id
  | ListTranscripts v => v = video_id
  | TrackFetch v _ => v = video_id
  | RequestsGet u => u = watch_url video_id
  end.

(** A call of the provider, as opposed to a fetch of the watch page. *)
Definition to_provider (c : call) : bool :=
  match c with
  | RequestsGet _ => false
  | _ => true
  end.

(** A call of one of the two entry points of the provider, as opposed to
    the [fetch()] of a listed track. *)
Definition entry_point (c : call) : bool :=
  match c with
  | GetTranscript _ _ | ListTranscripts _ => true
  | _ => false
  end.

(** What holds of the requests [fetch_transcript] sends for an id: they
    are calls of the provider, all for that id, at most three of them to
    its entry points. *)
Definition provider_log (video_id : string) (sent : list call) : Prop :=
  Forall (sent_for video_id) sent
  /\ forallb to_provider sent = true
  /\ List.length (filter entry_point sent) <= 3.


(** The lists the global holds while [transcript.py] serves requests:
    empty at import, then whatever a request to [/api/transcript] or
    [/api/batch] leaves ([/api/status] only reads it). *)
Inductive transcript_served (REQUEST_DELAY : Q) (MAX_REQUESTS_PER_MINUTE : Z)
    (api : transcript_api) (requests_get : string -> outcome soup)
    (type_error : json -> string) : list Q -> Prop :=
| transcript_at_import :
    transcript_served REQUEST_DELAY MAX_REQUESTS_PER_MINUTE api requests_get
      type_error []
| transcript_after_single (st : list Q) (now : Q) (utcnow : string)
    (get_json : outcome json) :
    transcript_served REQUEST_DELAY MAX_REQUESTS_PER_MINUTE api requests_get
      type_error st ->
    transcript_served REQUEST_DELAY MAX_REQUESTS_PER_MINUTE api requests_get
      type_error
      (fst (Transcript.get_transcript REQUEST_DELAY MAX_REQUESTS_PER_MINUTE
              api requests_get type_error st now utcnow get_json))
| transcript_after_batch (st : list Q) (now : Q) (utcnow : string)
    (get_json : outcome json) :
    transcript_served REQUEST_DELAY MAX_REQUESTS_PER_MINUTE api requests_get
      type_error st ->
    transcript_served REQUEST_DELAY MAX_REQUESTS_PER_MINUTE api requests_get
      type_error
      (fst (Transcript.get_batch_transcripts REQUEST_DELAY
              MAX_REQUESTS_PER_MINUTE api type_error st now utcnow get_json)).

(** The same for [app.py], which has the single route only. *)
Inductive app_served (REQUEST_DELAY : Q) (MAX_REQUESTS_PER_MINUTE : Z)
    (api : transcript_api) (requests_get : string -> outcome soup)
    (type_error : json -> string) : list Q -> Prop :=
| app_at_import :
    app_served REQUEST_DELAY MAX_REQUESTS_PER_MINUTE api requests_get
      type_error []
| app_after_single (st : list Q) (now : Q) (utcnow : string)
    (get_json : outcome json) :
    app_served REQUEST_DELAY MAX_REQUESTS_PER_MINUTE api requests_get
      type_error st ->
    app_served REQUEST_DELAY MAX_REQUESTS_PER_MINUTE api requests_get
      type_error
      (fst (App.get_transcript REQUEST_DELAY api requests_get
              MAX_REQUESTS_PER_MINUTE type_error st now utcnow get_json)).

(** A JSON-LD script the duration loop passes over: one that does not
    parse, or whose root (the first element, for a list) is not an object
    of type [VideoObject]. *)
Definition passed_over (script : outcome json) : bool :=
  match script with
  | Raises _ => true
  | Returns data =>
      match match data with
            | JArr [] => JObj []
            | JArr (first :: _) => first
            | _ => data
            end with
      | JObj fields => negb (is_video_object fields)
      | _ => true
      end
  end.

(** A text without line feeds. *)
Fixpoint one_line (s : string) : bool :=
  match s with
  | EmptyString => true
  | String c s' => negb (Ascii.eqb c newline) && one_line s'
  end.

(** A URL of a batch that gets as far as the provider. *)
Definition usable (url : json) : bool :=
  match Transcript.extract_from url with
  | Some (String _ _) => true
  | _ => false
  end.

(** What a batch shows for one URL: an object that repeats the URL and
    says whether it succeeded; for a URL that yields no id, that it did
    not, and why; for the others, the id. *)
Definition answers (url result : json) : Prop :=
  exists fields success,
    result = JObj fields
    /\ lookup "url" fields = Some url
    /\ lookup "success" fields = Some (JBool success)
    /\ (if usable url
        then Transcript.extract_from url
             = match lookup "video_id" fields with
               | Some (JStr video_id) => Some video_id
               | _ => None
               end
        else success = false
             /\ lookup "error" fields = Some (JStr "Invalid YouTube URL")
             /\ lookup "video_id" fields = None).


(** What an answer of the single-transcript route holds, by status
    code. *)
Definition keeps_contract (r : reply) : Prop :=
  (code r = 200%Z
   /\ lookup "success" (payload r) = Some (JBool true)
   /\ lookup "error" (payload r) = None
   /\ exists transcript,
        lookup "transcript" (payload r) = Some (JStr transcript)
        /\ lookup "transcript_length" (payload r)
           = Some (json_nat (String.length transcript))
        /\ tidy transcript = true)
  \/ (code r = 404%Z
      /\ lookup "success" (payload r) = Some (JBool false)
      /\ lookup "transcript" (payload r) = Some (JStr "")
      /\ lookup "transcript_length" (payload r) = Some (json_nat 0)
      /\ exists error,
           lookup "error" (payload r) = Some (JStr error)
           /\ error <> "" /\ String.length error <= 125)
  \/ ((code r = 400%Z \/ code r = 429%Z \/ code r = 500%Z)
      /\ lookup "success" (payload r) = Some (JBool false)
      /\ (exists error, lookup "error" (payload r) = Some (JStr error))
      /\ lookup "transcript" (payload r) = None
      /\ calls_made r = []).

(** ** The title as the specification words it *)

(** [s] without a trailing [suffix]. *)
Fixpoint strip_suffix (suffix s : string) : string :=
  if String.eqb s suffix then ""
  else match s with
       | EmptyString => ""
       | String c s' => String c (strip_suffix suffix s')
       end.

(** "The [og:title] meta tag content if present; else the document's
    [title] element text with a trailing [ - YouTube] suffix stripped;
    else Unknown Title." *)
Definition stated_title (page : soup) : string :=
  match og_title page with
  | Some (Some content) => content
  | _ =>
      match title_element page with
      | Some text => strip_suffix " - YouTube" text
      | None => "Unknown Title"
      end
  end.

(** What a result of [fetch_transcript] looks like: cleaned text of a
    non-empty assembled transcript with the success flag, or no text and
    a reason that is neither empty nor longer than 125 characters. *)
Definition well_formed_result (r : string * bool * string) : Prop :=
  (exists transcript_text,
      nonempty transcript_text = true
      /\ r = (clean_transcript transcript_text, true, ""))
  \/ (exists error,
        r = ("", false, error)
        /\ error <> "" /\ String.length error <= 125).

(** ** Sample inputs *)

(** A video whose captions are one annotation and nothing else. *)
Definition music_only : transcript_api :=
  {| get_transcript := fun _ _ => Returns ["[Music]"];
     list_transcripts := fun _ => Returns [] |}.

(** A video for which every call of the provider raises. *)
Definition no_captions : transcript_api :=
  {| get_transcript := fun _ _ => Raises "Subtitles are disabled for this video";
     list_transcripts := fun _ => Raises "Subtitles are disabled for this video" |}.

(** A JSON-LD block whose duration starts with PT and goes on with
    letters. *)
Definition malformed_duration : json :=
  JObj [("@type", JStr "VideoObject"); ("duration", JStr "PTxyz")].

(** The number written with one nine more than [int_max_str_digits], and
    a duration of that many seconds. *)
Definition nines (n : nat) : Decimal.uint :=
  Nat.iter n Decimal.D9 (Decimal.D9 Decimal.Nil).
Definition long_number : N := N.of_uint (nines int_max_str_digits).
Definition oversized_duration : string :=
  "PT" ++ component None "H" ++ component None "M"
  ++ component (Some long_number) "S".

(** A watch page without [og:title], its [title] element naming the site
    twice. *)
Definition rewind_page : soup :=
  {| og_title := None;
     title_element := Some "A - YouTube Rewind - YouTube";
     og_description := None;
     json_scripts := [] |}.

(** A watch page with a [title] element only. *)
Definition plain_page : soup :=
  {| og_title := None;
     title_element := Some "Never Gonna Give You Up - YouTube";
     og_description := None;
     json_scripts := [] |}.

(** Request bodies of [/api/batch] with no URL and with six. *)
Definition empty_batch : json := JObj [("urls", JArr [])].
Definition six_urls : json :=
  JObj [("urls", JArr (repeat (JStr "https://youtu.be/dQw4w9WgXcQ") 6))].

(** * Properties *)

(** ** Strings *)

Lemma length_append (a b : string) :
  String.length (a ++ b) = String.length a + String.length b.
Proof. induction a as [|c a IH]; simpl; [reflexivity | now rewrite IH]. Qed.

Lemma append_nil_r (a : string) : a ++ "" = a.
Proof. induction a as [|c a IH]; simpl; [reflexivity | now rewrite IH]. Qed.

Lemma append_assoc (a b c : string) : (a ++ b) ++ c = a ++ (b ++ c).
Proof. induction a as [|x a IH]; simpl; [reflexivity | now rewrite IH]. Qed.

Lemma substring_whole_prefix (a b : string) :
  substring 0 (String.length a) (a ++ b) = a.
Proof.
  induction a as [|c a IH]; simpl.
  - now destruct b.
  - now rewrite IH.
Qed.

Lemma consumed_append (a b : string) : consumed (a ++ b) b = a.
Proof.
  unfold consumed. rewrite length_append.
  replace (String.length a + String.length b - String.length b)
    with (String.length a) by lia.
  apply substring_whole_prefix.
Qed.

(** ** Cleaning *)

Lemma to_close_bound (s : string) (n : nat) :
  to_close s = Some n -> 1 <= n <= String.length s.
Proof.
  revert n. induction s as [|c s IH]; cbn [to_close String.length];
    intros n H; [discriminate|].
  destruct (Ascii.eqb "]" c).
  - injection H as <-. lia.
  - destruct (Ascii.eqb c newline); [discriminate|].
    destruct (to_close s) as [m|]; [|discriminate].
    injection H as <-. specialize (IH m eq_refl). lia.
Qed.

Lemma closes_to_close (s : string) :
  closes s = match to_close s with Some _ => true | None => false end.
Proof.
  induction s as [|c s IH]; cbn [closes to_close]; [reflexivity|].
  rewrite (Ascii.eqb_sym c "]").
  destruct (Ascii.eqb "]" c); [reflexivity|].
  destruct (Ascii.eqb c newline); [reflexivity|].
  rewrite IH. now destruct (to_close s).
Qed.

(** The lazy [.*?] followed by the closing bracket stops at the first
    closing bracket of the line. *)
Lemma star_lazy_to_close (L : nat) (s : string) :
  star_lazy dot s
    (fun t => match t with
              | String c t' =>
                  if Ascii.eqb "]" c then Some (L - String.length t') else None
              | EmptyString => None
              end)
  = match to_close s with
    | Some n => Some (L - (String.length s - n))
    | None => None
    end.
Proof.
  induction s as [|c s IH]; cbn [star_lazy to_close String.length];
    [reflexivity|].
  destruct (Ascii.eqb "]" c).
  - f_equal; lia.
  - unfold dot at 1. destruct (Ascii.eqb c newline); cbn [negb]; [reflexivity|].
    rewrite IH. destruct (to_close s) as [n|]; reflexivity.
Qed.

Lemma match_length_bracket (c : ascii) (s : string) :
  match_length bracket_pattern (String c s)
  = if Ascii.eqb "[" c then option_map S (to_close s) else None.
Proof.
  unfold match_length, bracket_pattern. cbn [rmatch].
  destruct (Ascii.eqb "[" c); [|reflexivity].
  rewrite (star_lazy_to_close (String.length (String c s)) s).
  destruct (to_close s) as [n|] eqn:E; [|reflexivity].
  apply to_close_bound in E. cbn [option_map String.length]. f_equal; lia.
Qed.

Lemma star_greedy_run (L : nat) (s : string) :
  star_greedy isspace s (fun t => Some (L - String.length t))
  = Some (L - (String.length s - run_length s)).
Proof.
  induction s as [|c s IH]; cbn [star_greedy run_length String.length];
    [reflexivity|].
  destruct (isspace c).
  - rewrite IH. reflexivity.
  - f_equal; lia.
Qed.

Lemma run_length_bound (s : string) : run_length s <= String.length s.
Proof.
  induction s as [|c s IH]; cbn [run_length String.length]; [lia|].
  destruct (isspace c); lia.
Qed.

Lemma match_length_spaces (c : ascii) (s : string) :
  match_length spaces_pattern (String c s)
  = if isspace c then Some (S (run_length s)) else None.
Proof.
  unfold match_length, spaces_pattern, Plus. cbn [rmatch].
  destruct (isspace c); [|reflexivity].
  rewrite (star_greedy_run (String.length (String c s)) s).
  pose proof (run_length_bound s). cbn [String.length]. f_equal; lia.
Qed.

(** Neither pattern matches the empty string, so [re_sub_from] covers
    every match [re.sub] makes. *)
Lemma bracket_never_empty (s : string) :
  match_length bracket_pattern s <> Some 0.
Proof.
  destruct s as [|c s]; [discriminate|].
  rewrite match_length_bracket.
  destruct (Ascii.eqb "[" c); [|discriminate].
  destruct (to_close s); discriminate.
Qed.

Lemma spaces_never_empty (s : string) :
  match_length spaces_pattern s <> Some 0.
Proof.
  destruct s as [|c s]; [discriminate|].
  rewrite match_length_spaces. destruct (isspace c); discriminate.
Qed.

Lemma re_sub_bracket_from (s : string) :
  (forall n, to_close s = Some n ->
     re_sub_from bracket_pattern "" n s = remove_bracketed true s)
  /\ re_sub_from bracket_pattern "" 0 s = remove_bracketed false s.
Proof.
  induction s as [|c s [IH1 IH0]]; [split; [discriminate | reflexivity]|].
  split.
  - intros n H. cbn [to_close] in H. cbn [remove_bracketed].
    rewrite (Ascii.eqb_sym c "]").
    destruct (Ascii.eqb "]" c); cbn [negb].
    + injection H as <-. exact IH0.
    + destruct (Ascii.eqb c newline); [discriminate|].
      destruct (to_close s) as [m|] eqn:E; [|discriminate].
      injection H as <-. cbn [re_sub_from]. now apply IH1.
  - cbn [re_sub_from remove_bracketed].
    rewrite match_length_bracket, closes_to_close, (Ascii.eqb_sym c "[").
    destruct (Ascii.eqb "[" c); cbn [andb].
    + destruct (to_close s) as [m|] eqn:E; cbn [option_map].
      * cbn [append]. now apply IH1.
      * now rewrite IH0.
    + now rewrite IH0.
Qed.

Lemma re_sub_spaces_from (s : string) :
  re_sub_from spaces_pattern " " (run_length s) s = collapse_spaces true s
  /\ re_sub_from spaces_pattern " " 0 s = collapse_spaces false s.
Proof.
  induction s as [|c s [IH1 IH0]]; [split; reflexivity|].
  split.
  - cbn [collapse_spaces run_length].
    destruct (isspace c) eqn:E.
    + exact IH1.
    + cbn [re_sub_from]. rewrite match_length_spaces, E. now rewrite IH0.
  - cbn [re_sub_from collapse_spaces].
    rewrite match_length_spaces.
    destruct (isspace c); [cbn [append]; now rewrite IH1 | now rewrite IH0].
Qed.

(** After the first substitution no annotation is left. *)
Lemma closes_remove_bracketed (s : string) :
  closes s = false -> closes (remove_bracketed false s) = false.
Proof.
  induction s as [|c s IH]; [reflexivity|]. cbn [closes remove_bracketed].
  destruct (Ascii.eqb c "]") eqn:Eclose; [discriminate|].
  destruct (Ascii.eqb c newline) eqn:Eline; intros H.
  - destruct (Ascii.eqb c "[" && closes s) eqn:E.
    + apply andb_prop in E as [E _]. apply Ascii.eqb_eq in E. subst c.
      vm_compute in Eline. discriminate Eline.
    + cbn [closes]. now rewrite Eclose, Eline.
  - rewrite H, andb_false_r. cbn [closes]. rewrite Eclose, Eline. auto.
Qed.

Lemma bracket_free_remove_bracketed (s : string) (inside : bool) :
  bracket_free (remove_bracketed inside s) = true.
Proof.
  revert inside. induction s as [|c s IH]; intros inside; [now destruct inside|].
  cbn [remove_bracketed]. destruct inside; [apply IH|].
  destruct (Ascii.eqb c "[" && closes s) eqn:E; [apply IH|].
  cbn [bracket_free]. rewrite IH, andb_true_r.
  apply andb_false_iff in E as [E | E]; [now rewrite E|].
  now rewrite (closes_remove_bracketed s E), andb_false_r.
Qed.

(** After the second substitution whitespace is single spaces. *)
Lemma collapse_spaces_head (s : string) :
  head_not_space (collapse_spaces true s) = true.
Proof.
  induction s as [|c s IH]; [reflexivity|]. cbn [collapse_spaces].
  destruct (isspace c) eqn:E; [exact IH|]. cbn [head_not_space]. now rewrite E.
Qed.

Lemma collapse_spaces_spaced (s : string) (in_run : bool) :
  spaced (collapse_spaces in_run s) = true.
Proof.
  revert in_run. induction s as [|c s IH]; intros in_run; [reflexivity|].
  cbn [collapse_spaces]. destruct (isspace c) eqn:E.
  - destruct in_run; [apply IH|]. cbn [spaced].
    rewrite IH, collapse_spaces_head. reflexivity.
  - cbn [spaced]. now rewrite E, IH.
Qed.

Lemma lstrip_spaced (s : string) :
  spaced s = true ->
  spaced (lstrip s) = true /\ head_not_space (lstrip s) = true.
Proof.
  induction s as [|c s IH]; [now split|]. cbn [lstrip spaced].
  destruct (isspace c) eqn:E; intros H.
  - apply andb_prop in H as [_ H]. now apply IH.
  - cbn [spaced head_not_space]. now rewrite E.
Qed.

Lemma rstrip_head (s : string) (c : ascii) (r : string) :
  rstrip s = String c r -> exists t, s = String c t.
Proof.
  destruct s as [|c' s]; [discriminate|]. cbn [rstrip].
  destruct (rstrip s); [destruct (isspace c')|]; intros [= <- _]; eauto.
Qed.

Lemma rstrip_head_not_space (s : string) :
  head_not_space s = true -> head_not_space (rstrip s) = true.
Proof.
  intros H. destruct (rstrip s) as [|c r] eqn:E; [reflexivity|].
  apply rstrip_head in E as [t ->]. exact H.
Qed.

Lemma rstrip_single_spaced (s : string) :
  spaced s = true -> single_spaced (rstrip s) = true.
Proof.
  induction s as [|c s IH]; [reflexivity|]. cbn [spaced rstrip].
  intros H. apply andb_prop in H as [Hc Hs]. specialize (IH Hs).
  destruct (rstrip s) as [|c' r] eqn:E.
  - destruct (isspace c) eqn:Ec; [reflexivity|].
    cbn [single_spaced]. now rewrite Ec.
  - cbn [single_spaced] in *. rewrite IH, andb_true_r.
    destruct (isspace c); [|reflexivity].
    apply andb_prop in Hc as [-> Hhead].
    apply rstrip_head in E as [t ->]. cbn [head_not_space] in *.
    now rewrite Hhead.
Qed.

Lemma strip_tidy (s : string) : spaced s = true -> tidy (strip s) = true.
Proof.
  intros H. apply lstrip_spaced in H as [Hs Hh]. unfold tidy, strip.
  now rewrite (rstrip_head_not_space _ Hh), (rstrip_single_spaced _ Hs).
Qed.

(** C5, the claim as stated fails: the pattern's [.] stops at a line
    feed, so brackets that enclose a line feed are not removed, and the
    line feed then becomes a space. *)
Lemma annotation_across_lines_is_kept :
  clean_transcript ("Hello [soft" ++ String newline "music] world")
  = "Hello [soft music] world".
Proof. reflexivity. Qed.

(** C5, as amended. Cleaning an assembled transcript first removes every
    bracketed annotation that lies on one line, an opening bracket up to
    the first closing bracket that follows it before any line feed, so
    that none such is left after this step; then it turns every run of
    whitespace into one space and strips both ends, so that the result
    has no whitespace but single spaces between other characters; and
    "Hello [Music] world   foo" becomes "Hello world foo". *)
Theorem clean_transcript_steps :
  (forall transcript_text,
      clean_transcript transcript_text
      = strip (collapse_spaces false (remove_bracketed false transcript_text))
      /\ bracket_free (re_sub bracket_pattern "" transcript_text) = true
      /\ tidy (clean_transcript transcript_text) = true)
  /\ clean_transcript "Hello [Music] world   foo" = "Hello world foo".
Proof.
  split; [|reflexivity].
  intros t. unfold clean_transcript, re_sub.
  rewrite (proj2 (re_sub_bracket_from t)).
  rewrite (proj2 (re_sub_spaces_from _)).
  split; [reflexivity|]. split.
  - apply bracket_free_remove_bracketed.
  - apply strip_tidy, collapse_spaces_spaced.
Qed.

(** ** Where a match ends *)

Section MatchResults.
Context {R : Type}.

Lemma star_greedy_result (p : ascii -> bool) (s : string)
    (k : string -> option R) (x : R) :
  star_greedy p s k = Some x ->
  exists s', k s' = Some x /\ String.length s' <= String.length s.
Proof.
  induction s as [|c s IH]; cbn [star_greedy String.length]; [eauto|].
  destruct (p c); [|eauto].
  destruct (star_greedy p s k) as [y|] eqn:E; [|eauto].
  intros [= ->]. destruct (IH eq_refl) as (s' & Hk & Hl). eauto.
Qed.

Lemma star_lazy_result (p : ascii -> bool) (s : string)
    (k : string -> option R) (x : R) :
  star_lazy p s k = Some x ->
  exists s', k s' = Some x /\ String.length s' <= String.length s.
Proof.
  induction s as [|c s IH]; cbn [star_lazy String.length].
  - destruct (k "") eqn:E; [intros [= ->]; eauto | discriminate].
  - destruct (k (String c s)) eqn:E; [intros [= ->]; eauto|].
    destruct (p c); [|discriminate].
    intros H. destruct (IH H) as (s' & Hk & Hl). eauto.
Qed.

(** A match ends by handing a suffix of the input to its continuation. *)
Lemma rmatch_result (r : regex) :
  forall (s : string) (g : captures) (k : string -> captures -> option R)
         (x : R),
    rmatch r s g k = Some x ->
    exists s' g', k s' g' = Some x /\ String.length s' <= String.length s.
Proof.
  induction r as [c | p | | r1 IH1 r2 IH2 | r1 IH1 r2 IH2 | p | p | i r IH];
    intros s g k x; cbn [rmatch].
  - destruct s as [|c' s]; [discriminate|].
    destruct (Ascii.eqb c c'); [|discriminate]. cbn [String.length]. eauto.
  - destruct s as [|c' s]; [discriminate|].
    destruct (p c'); [|discriminate]. cbn [String.length]. eauto.
  - eauto.
  - intros H. apply IH1 in H as (s1 & g1 & H & L1).
    apply IH2 in H as (s2 & g2 & H & L2). exists s2, g2. split; [assumption | lia].
  - destruct (rmatch r1 s g k) as [y|] eqn:E.
    + intros [= ->]. now apply IH1 in E.
    + apply IH2.
  - intros H. apply star_greedy_result in H as (s' & H & L). eauto.
  - intros H. apply star_lazy_result in H as (s' & H & L). eauto.
  - intros H. apply IH in H as (s' & g' & H & L). eauto.
Qed.

Lemma times_result (n : nat) (p : ascii -> bool) :
  forall (s : string) (g : captures) (k : string -> captures -> option R)
         (x : R),
    rmatch (Times n p) s g k = Some x ->
    exists s', k s' g = Some x /\ String.length s = n + String.length s'.
Proof.
  induction n as [|n IH]; intros s g k x; cbn [Times rmatch]; [eauto|].
  destruct s as [|c s]; [discriminate|]. destruct (p c); [|discriminate].
  intros H. apply IH in H as (s' & H & L). exists s'.
  cbn [String.length]. split; [assumption | lia].
Qed.

Lemma seq_group_times_result (r : regex) (i n : nat) (p : ascii -> bool)
    (s : string) (g : captures) (k : string -> captures -> option R) (x : R) :
  rmatch (Seq r (Group i (Times n p))) s g k = Some x ->
  exists s1 g1 s2,
    k s2 ((i, consumed s1 s2) :: g1) = Some x
    /\ String.length s1 = n + String.length s2.
Proof.
  cbn [rmatch]. intros H. apply rmatch_result in H as (s1 & g1 & H & _).
  apply times_result in H as (s2 & H & L). eauto.
Qed.
End MatchResults.

Lemma substring_length (n : nat) (s : string) :
  n <= String.length s -> String.length (substring 0 n s) = n.
Proof.
  revert s. induction n as [|n IH]; intros [|c s];
    cbn [substring String.length]; intros H; try lia.
  rewrite IH; lia.
Qed.

(** ** Duration *)

Lemma string_of_uint_digits (d : Decimal.uint) :
  all_digits (NilEmpty.string_of_uint d) = true.
Proof. induction d; cbn [NilEmpty.string_of_uint all_digits]; auto. Qed.

Lemma to_uint_nonnil (n : N) : N.to_uint n <> Decimal.Nil.
Proof.
  destruct n as [|p]; [discriminate|]. apply DecimalPos.Unsigned.to_uint_nonnil.
Qed.

Lemma str_of_int_unfold (n : N) :
  str_of_int n = NilEmpty.string_of_uint (N.to_uint n).
Proof.
  unfold str_of_int. pose proof (to_uint_nonnil n) as H.
  destruct (N.to_uint n); [now elim H | reflexivity ..].
Qed.

Lemma str_of_int_digits (n : N) :
  exists d ds, str_of_int n = String d ds
               /\ isdigit d = true /\ all_digits ds = true.
Proof.
  pose proof (string_of_uint_digits (N.to_uint n)) as H.
  rewrite <- str_of_int_unfold in H.
  pose proof (to_uint_nonnil n) as Hn. rewrite str_of_int_unfold in *.
  destruct (N.to_uint n); [now elim Hn | ..];
    cbn [NilEmpty.string_of_uint all_digits] in *;
    apply andb_prop in H as [Hd Hds]; eauto.
Qed.

Lemma int_of_str_of_int (n : N) :
  String.length (str_of_int n) <= int_max_str_digits ->
  int_of_str (str_of_int n) = Returns n.
Proof.
  intros H. unfold int_of_str. apply Nat.ltb_ge in H. rewrite H.
  rewrite str_of_int_unfold, NilEmpty.usu. f_equal.
  apply DecimalN.Unsigned.of_to.
Qed.

Lemma int_of_str_too_long (n : N) :
  int_max_str_digits < String.length (str_of_int n) ->
  exists e, int_of_str (str_of_int n) = Raises e.
Proof.
  intros H. unfold int_of_str. apply Nat.ltb_lt in H. rewrite H.
  rewrite str_of_int_unfold, NilEmpty.usu. eauto.
Qed.

(** [int] raises on nothing but a string of more than
    [int_max_str_digits] characters. *)
Lemma int_of_str_short (s : string) :
  String.length s <= int_max_str_digits -> exists n, int_of_str s = Returns n.
Proof.
  intros H. unfold int_of_str. apply Nat.ltb_ge in H. rewrite H.
  destruct (NilEmpty.uint_of_string s); eauto.
Qed.

Lemma string_of_uint_length (d : Decimal.uint) :
  String.length (NilEmpty.string_of_uint d) = Decimal.nb_digits d.
Proof.
  induction d; cbn [NilEmpty.string_of_uint String.length Decimal.nb_digits];
    auto.
Qed.

(** What [int] returns has at most [int_max_str_digits] digits, so that
    [str] accepts it in turn. *)
Lemma int_of_str_printable (s : string) (n : N) :
  int_of_str s = Returns n ->
  String.length (str_of_int n) <= int_max_str_digits.
Proof.
  unfold int_of_str.
  destruct (NilEmpty.uint_of_string s) as [d|] eqn:E.
  - destruct (Nat.ltb _ _) eqn:L; [discriminate|]. intros [= <-].
    apply Nat.ltb_ge in L. apply NilEmpty.sus in E. subst s.
    rewrite string_of_uint_length in L.
    rewrite str_of_int_unfold, DecimalN.Unsigned.to_of, string_of_uint_length.
    destruct d; try (etransitivity;
                     [apply DecimalFacts.nb_digits_unorm; discriminate
                     | exact L]).
    unfold int_max_str_digits. cbn. lia.
  - intros [= <-]. unfold int_max_str_digits. cbn. lia.
Qed.

Lemma written_int_cases (n : option N) :
  (accepted n = true -> written_int n = Returns (amount n))
  /\ (accepted n = false -> exists e, written_int n = Raises e).
Proof.
  destruct n as [n|]; cbn [accepted written_int amount].
  - split; intros H.
    + apply int_of_str_of_int. now apply Nat.leb_le.
    + apply int_of_str_too_long. now apply Nat.leb_gt.
  - split; [reflexivity | discriminate].
Qed.

Lemma group_int_written (i : nat) (n : N) (g : captures) :
  group_int ((i, str_of_int n) :: g) i = int_of_str (str_of_int n).
Proof.
  unfold group_int. cbn [group]. rewrite Nat.eqb_refl.
  destruct (str_of_int_digits n) as (d & ds & E & _). rewrite E.
  reflexivity.
Qed.

(** ** Captures are never longer than the input *)

Lemma substring_length_le (n : nat) (s : string) :
  String.length (substring 0 n s) <= String.length s.
Proof.
  revert s. induction n as [|n IH]; intros [|c s];
    cbn [substring String.length]; try lia.
  specialize (IH s). lia.
Qed.

Lemma rmatch_short {R : Type} (L : nat) (r : regex) :
  forall (s : string) (g : captures) (k : string -> captures -> option R)
         (x : R),
    String.length s <= L -> short L g ->
    rmatch r s g k = Some x ->
    exists s' g', k s' g' = Some x
                  /\ String.length s' <= String.length s /\ short L g'.
Proof.
  induction r as [c | p | | r1 IH1 r2 IH2 | r1 IH1 r2 IH2 | p | p | i r IH];
    intros s g k x Hs Hg; cbn [rmatch].
  - destruct s as [|c' s]; [discriminate|].
    destruct (Ascii.eqb c c'); [|discriminate]. cbn [String.length].
    intros H. exists s, g. auto.
  - destruct s as [|c' s]; [discriminate|].
    destruct (p c'); [|discriminate]. cbn [String.length].
    intros H. exists s, g. auto.
  - intros H. exists s, g. auto.
  - intros H. apply IH1 in H as (s1 & g1 & H & L1 & G1); auto.
    apply IH2 in H as (s2 & g2 & H & L2 & G2); auto; [|lia].
    exists s2, g2. repeat split; auto. lia.
  - destruct (rmatch r1 s g k) as [y|] eqn:E.
    + intros [= ->]. now apply IH1 in E.
    + now apply IH2.
  - intros H. apply star_greedy_result in H as (s' & H & L'). eauto.
  - intros H. apply star_lazy_result in H as (s' & H & L'). eauto.
  - intros H. apply IH in H as (s' & g' & H & L' & G'); auto.
    exists s', ((i, consumed s s') :: g'). repeat split; auto.
    constructor; [|exact G']. cbn [snd]. unfold consumed.
    pose proof (substring_length_le (String.length s - String.length s') s).
    lia.
Qed.

Lemma group_short (L : nat) (g : captures) (i : nat) (t : string) :
  short L g -> group g i = Some t -> String.length t <= L.
Proof.
  induction 1 as [|[j s] g Hs _ IH]; cbn [group]; [discriminate|].
  destruct (Nat.eqb i j); [|exact IH]. now intros [= <-].
Qed.

Lemma group_int_short (g : captures) (i : nat) :
  short int_max_str_digits g -> exists n, group_int g i = Returns n.
Proof.
  intros Hg. unfold group_int. destruct (group g i) as [t|] eqn:E; [|eauto].
  destruct (nonempty t); [|eauto].
  apply int_of_str_short. now apply (group_short _ g i).
Qed.

Section DigitRuns.
Context {R : Type}.

(** A greedy [\d*] in front of a continuation that refuses digits: the
    only split that can succeed is the one after the whole run. *)
Lemma star_greedy_digits (ds : string) (u : ascii) (rest : string)
    (k : string -> option R) :
  all_digits ds = true -> isdigit u = false ->
  (forall c t, isdigit c = true -> k (String c t) = None) ->
  star_greedy isdigit (ds ++ String u rest) k = k (String u rest).
Proof.
  intros Hds Hu Hk. induction ds as [|d ds IH]; cbn [append star_greedy].
  - now rewrite Hu.
  - cbn [all_digits] in Hds. apply andb_prop in Hds as [Hd Hds].
    rewrite Hd, (IH Hds), (Hk d _ Hd). now destruct (k (String u rest)).
Qed.

(** [(\d+)U] on a written number followed by a letter. *)
Lemma number_then_unit (i : nat) (unit : ascii) (n : N) (u : ascii)
    (rest : string) (g : captures) (k : string -> captures -> option R) :
  isdigit unit = false -> isdigit u = false ->
  rmatch (Seq (Group i (Plus isdigit)) (Lit unit))
    (str_of_int n ++ String u rest) g k
  = if Ascii.eqb unit u then k rest ((i, str_of_int n) :: g) else None.
Proof.
  intros Hunit Hu.
  destruct (str_of_int_digits n) as (d & ds & E & Hd & Hds).
  pose proof (consumed_append (str_of_int n) (String u rest)) as Hc.
  rewrite E in *. cbn [rmatch Plus append]. rewrite Hd.
  rewrite star_greedy_digits; auto.
  - cbn [append] in Hc. now rewrite Hc.
  - intros c t Hcd. destruct (Ascii.eqb unit c) eqn:Ec; [|reflexivity].
    apply Ascii.eqb_eq in Ec. subst c. congruence.
Qed.

Lemma component_absent (i : nat) (unit : ascii) (s : string) (g : captures)
    (k : string -> captures -> option R) :
  isdigit unit = false -> other_component unit s ->
  rmatch (component_pattern i unit) s g k = k s g.
Proof.
  intros Hunit [-> | (n & u & rest & -> & Hu & Hne)];
    unfold component_pattern, Opt; cbn [rmatch].
  - reflexivity.
  - pose proof (number_then_unit i unit n u rest g k Hunit Hu) as H.
    cbn [rmatch] in H. rewrite H, Hne. reflexivity.
Qed.

Lemma component_present (i : nat) (unit : ascii) (n : N) (rest : string)
    (g : captures) (k : string -> captures -> option R) (r : R) :
  isdigit unit = false ->
  k rest ((i, str_of_int n) :: g) = Some r ->
  rmatch (component_pattern i unit) (component (Some n) unit ++ rest) g k
  = Some r.
Proof.
  intros Hunit Hk. unfold component_pattern, Opt, component.
  rewrite append_assoc. cbn [append rmatch].
  pose proof (number_then_unit i unit n unit rest g k Hunit Hunit) as H.
  cbn [rmatch] in H. rewrite H, Ascii.eqb_refl, Hk. reflexivity.
Qed.
End DigitRuns.

Lemma seconds_stage (s : option N) (g : captures) :
  rmatch (component_pattern 3 "S") (component s "S") g (fun _ g' => Some g')
  = Some (capture_of 3 s ++ g)%list.
Proof.
  destruct s as [n|].
  - rewrite <- (append_nil_r (component (Some n) "S")).
    now apply component_present.
  - cbn [component capture_of app].
    rewrite component_absent; [reflexivity | reflexivity | now left].
Qed.

Lemma minutes_stage (m s : option N) (g : captures) :
  rmatch (component_pattern 2 "M") (component m "M" ++ component s "S") g
    (fun s' g' => rmatch (component_pattern 3 "S") s' g' (fun _ g'' => Some g''))
  = Some (capture_of 3 s ++ capture_of 2 m ++ g)%list.
Proof.
  destruct m as [n|].
  - apply component_present; [reflexivity|]. apply seconds_stage.
  - cbn [component append capture_of app].
    rewrite component_absent; [apply seconds_stage | reflexivity |].
    destruct s as [n|]; [right | now left].
    exists n, "S"%char, "". repeat split.
Qed.

Lemma hours_stage (h m s : option N) :
  rmatch (component_pattern 1 "H")
    (component h "H" ++ component m "M" ++ component s "S") []
    (fun s1 g1 =>
       rmatch (component_pattern 2 "M") s1 g1
         (fun s2 g2 =>
            rmatch (component_pattern 3 "S") s2 g2 (fun _ g3 => Some g3)))
  = Some (capture_of 3 s ++ capture_of 2 m ++ capture_of 1 h)%list.
Proof.
  destruct h as [n|].
  - apply component_present; [reflexivity|]. apply minutes_stage.
  - cbn [component append capture_of].
    rewrite component_absent; [apply minutes_stage | reflexivity |].
    destruct m as [n|].
    + right. exists n, "M"%char, (component s "S").
      unfold component at 1. rewrite append_assoc. repeat split.
    + destruct s as [n|]; [right | now left].
      exists n, "S"%char, "". repeat split.
Qed.

Lemma duration_groups (h m s : option N) :
  re_match duration_pattern
    ("PT" ++ component h "H" ++ component m "M" ++ component s "S")
  = Some (capture_of 3 s ++ capture_of 2 m ++ capture_of 1 h)%list.
Proof. apply hours_stage. Qed.

Lemma group_int_captures (h m s : option N) :
  let g := (capture_of 3 s ++ capture_of 2 m ++ capture_of 1 h)%list in
  group_int g 1 = written_int h /\ group_int g 2 = written_int m
  /\ group_int g 3 = written_int s.
Proof.
  pose proof group_int_written as W. unfold group_int in *.
  destruct h, m, s;
    cbn [capture_of app written_int group Nat.eqb] in *;
    repeat split; try reflexivity;
    match goal with |- context [str_of_int ?n] => apply (W 0 n []) end.
Qed.

Lemma startswith_PT (w : string) : startswith "PT" ("PT" ++ w) = true.
Proof. destruct w; reflexivity. Qed.

Lemma written_duration (h m s : option N) :
  parse_duration
    ("PT" ++ component h "H" ++ component m "M" ++ component s "S")
  = (hours <- written_int h ;;
     minutes <- written_int m ;;
     seconds <- written_int s ;;
     Returns (render_duration hours minutes seconds)).
Proof.
  unfold parse_duration. rewrite duration_groups, startswith_PT.
  cbn [append nonempty andb].
  destruct (group_int_captures h m s) as (-> & -> & ->). reflexivity.
Qed.

Lemma written_duration_accepted (h m s : option N) :
  accepted h = true -> accepted m = true -> accepted s = true ->
  parse_duration
    ("PT" ++ component h "H" ++ component m "M" ++ component s "S")
  = Returns (render_duration (amount h) (amount m) (amount s)).
Proof.
  intros Hh Hm Hs. rewrite written_duration.
  rewrite (proj1 (written_int_cases h) Hh), (proj1 (written_int_cases m) Hm),
    (proj1 (written_int_cases s) Hs).
  reflexivity.
Qed.

Lemma written_duration_refused (h m s : option N) :
  accepted h = false \/ accepted m = false \/ accepted s = false ->
  exists e,
    parse_duration
      ("PT" ++ component h "H" ++ component m "M" ++ component s "S")
    = Raises e.
Proof.
  intros H. rewrite written_duration.
  destruct (accepted h) eqn:Hh.
  - rewrite (proj1 (written_int_cases h) Hh). cbn [bind].
    destruct (accepted m) eqn:Hm.
    + rewrite (proj1 (written_int_cases m) Hm). cbn [bind].
      destruct H as [H | [H | H]]; try discriminate.
      destruct (proj2 (written_int_cases s) H) as [e ->]. cbn [bind]. eauto.
    + destruct (proj2 (written_int_cases m) Hm) as [e ->]. cbn [bind]. eauto.
  - destruct (proj2 (written_int_cases h) Hh) as [e ->]. cbn [bind]. eauto.
Qed.

(** The long number is written with more digits than [int] accepts. *)
Lemma nines_digits (n : nat) :
  Decimal.unorm (nines n) = nines n /\ Decimal.nb_digits (nines n) = S n.
Proof.
  unfold nines. split; [now destruct n|].
  induction n as [|n IH]; [reflexivity|].
  change (S (Decimal.nb_digits
               (Nat.iter n Decimal.D9 (Decimal.D9 Decimal.Nil))) = S (S n)).
  now rewrite IH.
Qed.

Lemma long_number_refused : accepted (Some long_number) = false.
Proof.
  cbn [accepted]. apply Nat.leb_gt. unfold long_number.
  rewrite str_of_int_unfold, DecimalN.Unsigned.to_of,
    (proj1 (nines_digits _)), string_of_uint_length,
    (proj2 (nines_digits _)).
  apply Nat.lt_succ_diag_r.
Qed.

Lemma component_total {R : Type} (i : nat) (unit : ascii) (s : string)
    (g : captures) (k : string -> captures -> option R) :
  (forall s' g', k s' g' <> None) ->
  rmatch (component_pattern i unit) s g k <> None.
Proof.
  intros Hk. unfold component_pattern, Opt. cbn [rmatch].
  match goal with |- match ?x with _ => _ end <> _ => destruct x end;
    [discriminate | apply Hk].
Qed.

Lemma render_duration_known (hours minutes seconds : N) :
  render_duration hours minutes seconds <> "Unknown".
Proof.
  unfold render_duration.
  destruct (0 <? hours)%N; [|destruct (0 <? minutes)%N];
    match goal with
    | |- (str_of_int ?n ++ _) <> _ =>
        destruct (str_of_int_digits n) as (d & ds & -> & Hd & _)
    end;
    cbn [append]; intros [= -> _]; discriminate.
Qed.

Lemma startswith_PT_inv (duration_iso : string) :
  startswith "PT" duration_iso = true ->
  exists w, duration_iso = String "P" (String "T" w).
Proof.
  unfold startswith. destruct duration_iso as [|c1 [|c2 w]]; cbn [prefix].
  - discriminate.
  - destruct (ascii_dec "P" c1); discriminate.
  - destruct (ascii_dec "P" c1) as [<-|]; [|discriminate].
    destruct (ascii_dec "T" c2) as [<-|]; [|discriminate]. eauto.
Qed.

(** After ["PT"] the pattern always matches, and what it captures comes
    from the rest of the string. *)
Lemma duration_pattern_matches (w : string) :
  exists g, re_match duration_pattern (String "P" (String "T" w)) = Some g
            /\ short (String.length w) g.
Proof.
  assert (E : re_match duration_pattern (String "P" (String "T" w))
              = rmatch (Seq (component_pattern 1 "H")
                          (Seq (component_pattern 2 "M")
                             (component_pattern 3 "S")))
                  w [] (fun _ g => Some g)).
  { unfold re_match, duration_pattern. cbn [rmatch Word].
    now rewrite !Ascii.eqb_refl. }
  rewrite E.
  destruct (rmatch _ w [] (fun _ g => Some g)) as [g|] eqn:M.
  - exists g. split; [reflexivity|].
    apply (rmatch_short (String.length w)) in M
      as (s' & g' & [= <-] & _ & G); [exact G | lia | constructor].
  - exfalso. revert M. cbn [rmatch].
    repeat (apply component_total; intros ? ?). discriminate.
Qed.

Lemma short_weaken (L L' : nat) (g : captures) :
  L <= L' -> short L g -> short L' g.
Proof.
  intros HL. unfold short. apply Forall_impl. intros c Hc. lia.
Qed.

(** A string that starts with ["PT"] is turned down by [int] or rendered,
    and it is rendered when at most [int_max_str_digits] characters
    follow the ["PT"]. *)
Lemma parse_duration_prefixed (duration_iso : string) :
  startswith "PT" duration_iso = true ->
  (exists e, parse_duration duration_iso = Raises e)
  \/ (exists duration, parse_duration duration_iso = Returns duration
                       /\ duration <> "Unknown").
Proof.
  intros H. unfold parse_duration. rewrite H.
  apply startswith_PT_inv in H as [w ->]. cbn [nonempty andb].
  destruct (duration_pattern_matches w) as (g & -> & _).
  destruct (group_int g 1); [|left; cbn [bind]; eauto].
  destruct (group_int g 2); [|left; cbn [bind]; eauto].
  destruct (group_int g 3); [|left; cbn [bind]; eauto].
  right. cbn [bind]. eexists. split; [reflexivity|].
  apply render_duration_known.
Qed.

Lemma parse_duration_within (w : string) :
  String.length w <= int_max_str_digits ->
  exists duration, parse_duration ("PT" ++ w) = Returns duration
                   /\ duration <> "Unknown".
Proof.
  intros Hw. unfold parse_duration. rewrite startswith_PT.
  cbn [append nonempty andb].
  destruct (duration_pattern_matches w) as (g & -> & G).
  apply (short_weaken _ int_max_str_digits) in G; [|exact Hw].
  destruct (group_int_short g 1 G) as [hours ->].
  destruct (group_int_short g 2 G) as [minutes ->].
  destruct (group_int_short g 3 G) as [seconds ->].
  cbn [bind]. eexists. split; [reflexivity|]. apply render_duration_known.
Qed.

(** A [VideoObject] alone on its page: what [int] turns down leaves the
    duration at "Unknown". *)
Lemma lone_video_object (duration_iso : string) :
  scan_duration [Returns (video_object duration_iso)]
  = match parse_duration duration_iso with
    | Returns duration => duration
    | Raises _ => "Unknown"
    end.
Proof.
  unfold video_object. cbn [scan_duration].
  change (is_video_object _) with true. cbv iota.
  unfold duration_of_object. cbn [lookup String.eqb Ascii.eqb Bool.eqb].
  cbn [truthy]. destruct duration_iso; [reflexivity|]. cbn [nonempty].
  now destruct (parse_duration _).
Qed.

(** C6, as amended. ["PT1H5M12S"], ["PT5M"] and ["PT42S"] give
    ["1h 5m 12s"], ["5m 0s"] and ["42s"]; a page without JSON-LD, an
    object without a duration and a string that does not start with
    ["PT"] give ["Unknown"]; a string that starts with ["PT"] and goes on
    for at most [int_max_str_digits] characters is rendered, and never as
    ["Unknown"]; a duration written as [PT], then any of a number of hours
    and [H], of minutes and [M], of seconds and [S], is rendered from
    those numbers when each has at most [int_max_str_digits] digits, a
    component left out counting as 0, and is turned down by [int]
    otherwise, which leaves ["Unknown"] on a page with no other script;
    and the rendering is ["Hh Mm Ss"] for hours > 0, ["Mm Ss"] for
    hours = 0 and minutes > 0, and ["Ss"] otherwise. *)
Theorem parse_duration_cases :
  (parse_duration "PT1H5M12S" = Returns "1h 5m 12s"
   /\ parse_duration "PT5M" = Returns "5m 0s"
   /\ parse_duration "PT42S" = Returns "42s")
  /\ (scan_duration [] = "Unknown"
      /\ forall fields, lookup "duration" fields = None ->
           duration_of_object fields = Returns "Unknown")
  /\ (forall duration_iso, startswith "PT" duration_iso = false ->
        parse_duration duration_iso = Returns "Unknown")
  /\ (forall w, String.length w <= int_max_str_digits ->
        exists duration,
          parse_duration ("PT" ++ w) = Returns duration
          /\ duration <> "Unknown"
          /\ scan_duration [Returns (video_object ("PT" ++ w))] = duration)
  /\ (forall h m s,
        let duration_iso :=
          "PT" ++ component h "H" ++ component m "M" ++ component s "S" in
        (accepted h = true -> accepted m = true -> accepted s = true ->
         parse_duration duration_iso
         = Returns (render_duration (amount h) (amount m) (amount s)))
        /\ (accepted h = false \/ accepted m = false \/ accepted s = false ->
            (exists e, parse_duration duration_iso = Raises e)
            /\ scan_duration [Returns (video_object duration_iso)]
               = "Unknown"))
  /\ (forall hours minutes seconds,
        ((0 < hours)%N ->
         render_duration hours minutes seconds
         = str_of_int hours ++ "h " ++ str_of_int minutes ++ "m "
           ++ str_of_int seconds ++ "s")
        /\ (hours = 0%N -> (0 < minutes)%N ->
            render_duration hours minutes seconds
            = str_of_int minutes ++ "m " ++ str_of_int seconds ++ "s")
        /\ (hours = 0%N -> minutes = 0%N ->
            render_duration hours minutes seconds
            = str_of_int seconds ++ "s")).
Proof.
  split; [repeat split; vm_compute; reflexivity|].
  split.
  { split; [reflexivity|].
    intros fields H. unfold duration_of_object. now rewrite H. }
  split.
  { intros s H. unfold parse_duration. rewrite H.
    now rewrite andb_false_r. }
  split.
  { intros w Hw. destruct (parse_duration_within w Hw) as (d & E & Hd).
    exists d. repeat split; auto. now rewrite lone_video_object, E. }
  split.
  { intros h m s. cbv zeta. split.
    - apply written_duration_accepted.
    - intros H. destruct (written_duration_refused h m s H) as [e E].
      split; [eauto|]. now rewrite lone_video_object, E. }
  intros hours minutes seconds. unfold render_duration. repeat split.
  - intros H. apply N.ltb_lt in H. now rewrite H.
  - intros -> H. apply N.ltb_lt in H. now rewrite H.
  - now intros -> ->.
Qed.

Lemma parse_duration_cases_witness :
  render_duration 2 0 7 = "2h 0m 7s"
  /\ parse_duration "P1DT2H" = Returns "Unknown"
  /\ (exists duration, parse_duration "PT90S" = Returns duration
                       /\ duration <> "Unknown"
                       /\ scan_duration [Returns (video_object "PT90S")]
                          = duration)
  /\ parse_duration "PT2H7S" = Returns "2h 0m 7s"
  /\ scan_duration [Returns (video_object oversized_duration)] = "Unknown".
Proof.
  destruct parse_duration_cases
    as (_ & _ & Hother & Hprefixed & Hwritten & Hrender).
  split; [|split; [|split; [|split]]].
  - apply (proj1 (Hrender 2 0 7)%N). reflexivity.
  - apply (Hother "P1DT2H"). reflexivity.
  - apply (Hprefixed "90S"). unfold int_max_str_digits. cbn [String.length].
    lia.
  - apply (proj1 (Hwritten (Some 2%N) None (Some 7%N))); reflexivity.
  - unfold oversized_duration.
    exact (proj2 (proj2 (Hwritten None None (Some long_number))
                    (or_intror (or_intror long_number_refused)))).
Defined.

(** C6, the claim as stated fails: a JSON-LD duration that starts with
    ["PT"] and is otherwise malformed is rendered as ["0s"], not as
    ["Unknown"]. *)
Lemma malformed_duration_is_zero_seconds :
  parse_duration "PTxyz" = Returns "0s"
  /\ scan_duration [Returns malformed_duration] = "0s"
  /\ scan_duration [Returns malformed_duration] <> "Unknown".
Proof. repeat split; vm_compute; [reflexivity .. | discriminate]. Qed.

(** ** Video id extraction *)

(** [app.py] returns a candidate exactly when it has eleven characters. *)
Lemma app_extract_video_id_iff (youtube_url video_id : string) :
  App.extract_video_id youtube_url = Some video_id
  <-> candidate_id youtube_url = Some video_id
      /\ String.length video_id = 11.
Proof.
  unfold App.extract_video_id.
  destruct (candidate_id youtube_url) as [v|]; [|split; [|intros []]; discriminate].
  destruct (Nat.eqb (String.length v) 11) eqn:E.
  - apply Nat.eqb_eq in E. destruct v as [|c v]; [discriminate|].
    cbn [nonempty andb]. split.
    + intros [= <-]. now split.
    + now intros [[= <-] _].
  - rewrite andb_false_r. split; [discriminate|].
    intros [[= <-] H]. apply Nat.eqb_neq in E. contradiction.
Qed.

Lemma app_extract_video_id_length (youtube_url video_id : string) :
  App.extract_video_id youtube_url = Some video_id ->
  String.length video_id = 11.
Proof. intros H. now apply app_extract_video_id_iff in H. Qed.

Lemma app_extract_video_id_other_length (youtube_url candidate : string) :
  candidate_id youtube_url = Some candidate ->
  String.length candidate <> 11 ->
  App.extract_video_id youtube_url = None.
Proof.
  intros H Hlen. destruct (App.extract_video_id youtube_url) as [v|] eqn:E;
    [|reflexivity].
  apply app_extract_video_id_iff in E as [E Hv]. congruence.
Qed.

(** The URLs section 8 of the specification lists, in both files. *)
Lemma extract_video_id_examples :
  let urls := ["https://www.youtube.com/watch?v=dQw4w9WgXcQ";
               "https://www.youtube.com/watch?v=dQw4w9WgXcQ&t=30s";
               "https://youtu.be/dQw4w9WgXcQ";
               "https://www.youtube.com/embed/dQw4w9WgXcQ"] in
  map App.extract_video_id urls = repeat (Some "dQw4w9WgXcQ") 4
  /\ map Transcript.extract_video_id urls = repeat (Some "dQw4w9WgXcQ") 4
  /\ App.extract_video_id "not a video link" = None
  /\ Transcript.extract_video_id "not a video link" = None.
Proof. vm_compute. repeat split. Qed.

(** C1, the code against the claim: on a watch URL whose [v] parameter
    has three characters [transcript.py] returns those three characters,
    where the claim, and [app.py], give an absent result. *)
Theorem transcript_extract_video_id_keeps_short_token :
  Transcript.extract_video_id "https://www.youtube.com/watch?v=abc"
  = Some "abc"
  /\ App.extract_video_id "https://www.youtube.com/watch?v=abc" = None.
Proof. vm_compute. split; reflexivity. Qed.

(** ** Transcript retrieval *)

Lemma slice_to_length (n : nat) (s : string) :
  String.length (slice_to n s) <= n.
Proof.
  unfold slice_to. revert s. induction n as [|n IH]; intros [|c s];
    cbn [substring String.length]; try lia.
  specialize (IH s). lia.
Qed.

Lemma slice_to_short (n : nat) (s : string) :
  String.length s <= n -> slice_to n s = s.
Proof.
  unfold slice_to. revert s. induction n as [|n IH]; intros [|c s];
    cbn [substring String.length]; intros H; try reflexivity; try lia.
  rewrite IH; [reflexivity | lia].
Qed.

Lemma time_sleep_cases (secs : Q) :
  time_sleep secs = Returns tt /\ (0 <= secs)%Q
  \/ time_sleep secs = Raises "sleep length must be non-negative"
     /\ (secs < 0)%Q.
Proof.
  unfold time_sleep. destruct (secs ?= 0)%Q eqn:E.
  - left. split; [reflexivity|]. apply Qeq_alt in E. rewrite E. apply Qle_refl.
  - right. split; [reflexivity|]. now apply Qlt_alt.
  - left. split; [reflexivity|]. apply Qgt_alt in E. now apply Qlt_le_weak.
Qed.

Lemma finish_transcript_well_formed (transcript_text : string) :
  well_formed_result (finish_transcript transcript_text).
Proof.
  unfold finish_transcript. destruct transcript_text as [|c t].
  - right. eexists. split; [reflexivity|]. split; [discriminate|].
    cbn. lia.
  - left. now exists (String c t).
Qed.

Lemma unavailable_well_formed (e1 : string) :
  well_formed_result ("", false, "No transcript available: " ++ slice_to 100 e1).
Proof.
  right. eexists. split; [reflexivity|]. split; [discriminate|].
  rewrite length_append. pose proof (slice_to_length 100 e1).
  change (String.length "No transcript available: ") with 25. lia.
Qed.

Lemma transcript_fetch_well_formed (REQUEST_DELAY : Q)
    (api : transcript_api) (video_id : string) :
  well_formed_result (Transcript.fetch_transcript REQUEST_DELAY api video_id).
Proof.
  unfold Transcript.fetch_transcript.
  destruct (time_sleep_cases REQUEST_DELAY) as [[-> _] | [-> _]].
  - repeat match goal with
           | |- well_formed_result (match ?x with _ => _ end) => destruct x
           end;
      auto using finish_transcript_well_formed, unavailable_well_formed.
  - right. eexists. split; [reflexivity|]. split; [discriminate|]. cbn. lia.
Qed.

Lemma app_fetch_well_formed (REQUEST_DELAY : Q)
    (api : transcript_api) (video_id : string) :
  well_formed_result (App.fetch_transcript REQUEST_DELAY api video_id).
Proof.
  unfold App.fetch_transcript.
  destruct (time_sleep_cases REQUEST_DELAY) as [[-> _] | [-> _]].
  - repeat match goal with
           | |- well_formed_result (match ?x with _ => _ end) => destruct x
           | |- well_formed_result (if ?x then _ else _) => destruct x
           end;
      auto using finish_transcript_well_formed, unavailable_well_formed.
    right. eexists. split; [reflexivity|]. split; [discriminate|]. cbn. lia.
  - right. eexists. split; [reflexivity|]. split; [discriminate|]. cbn. lia.
Qed.

Lemma well_formed_failure (text error : string) :
  well_formed_result (text, false, error) ->
  text = "" /\ error <> "" /\ String.length error <= 125.
Proof.
  intros [(t & _ & [=]) | (e & [= -> ->] & H)]. now split.
Qed.

Lemma well_formed_success (text error : string) :
  well_formed_result (text, true, error) ->
  error = ""
  /\ exists transcript_text,
       nonempty transcript_text = true
       /\ text = clean_transcript transcript_text.
Proof.
  intros [(t & Ht & [= -> ->]) | (e & [=] & _)]. split; eauto.
Qed.

(** C2, the code against the claim: captions that consist of one
    bracketed annotation pass the [if transcript_text:] test, are cleaned
    to the empty string, and are returned with the success flag set, in
    both files. *)
Theorem fetch_transcript_success_with_empty_text :
  Transcript.fetch_transcript 1 music_only "dQw4w9WgXcQ" = ("", true, "")
  /\ App.fetch_transcript 1 music_only "dQw4w9WgXcQ" = ("", true, "").
Proof. split; vm_compute; reflexivity. Qed.

(** The part of the invariant the code keeps, in both files: a failure
    carries no text and a reason that is neither empty nor longer than
    125 characters; a success carries no reason, and its text is the
    cleaning of a non-empty assembled transcript. *)
Theorem fetch_transcript_result_shape (REQUEST_DELAY : Q)
    (api : transcript_api) (video_id : string) :
  well_formed_result (Transcript.fetch_transcript REQUEST_DELAY api video_id)
  /\ well_formed_result (App.fetch_transcript REQUEST_DELAY api video_id).
Proof.
  split; [apply transcript_fetch_well_formed | apply app_fetch_well_formed].
Qed.

(** C4. [fetch_transcript] is a total function of what the provider
    does: whenever it reports failure the text is empty and the reason is
    non-empty and at most 125 characters long; and when the default
    request, the request by language and the listing of tracks all raise,
    the reason is "No transcript available: " followed by the first 100
    characters of the first exception's message (all of it when it is
    that short). *)
Theorem fetch_transcript_failures_bounded (REQUEST_DELAY : Q)
    (api : transcript_api) (video_id : string) :
  (forall text error,
      Transcript.fetch_transcript REQUEST_DELAY api video_id
      = (text, false, error)
      \/ App.fetch_transcript REQUEST_DELAY api video_id = (text, false, error) ->
      text = "" /\ error <> "" /\ String.length error <= 125)
  /\ (forall e1 e2 e3,
        (0 <= REQUEST_DELAY)%Q ->
        get_transcript api video_id None = Raises e1 ->
        list_transcripts api video_id = Raises e3 ->
        (get_transcript api video_id (Some ["en"; "en-US"; "en-GB"])
         = Raises e2 ->
         Transcript.fetch_transcript REQUEST_DELAY api video_id
         = ("", false, "No transcript available: " ++ slice_to 100 e1))
        /\ (get_transcript api video_id (Some ["en"; "en-US"; "en-GB"; "auto"])
            = Raises e2 ->
            App.fetch_transcript REQUEST_DELAY api video_id
            = ("", false, "No transcript available: " ++ slice_to 100 e1)))
  /\ (forall e1, String.length e1 <= 100 -> slice_to 100 e1 = e1).
Proof.
  split; [|split].
  - intros text error H. apply well_formed_failure.
    destruct H as [<- | <-];
      [apply transcript_fetch_well_formed | apply app_fetch_well_formed].
  - intros e1 e2 e3 Hd H1 H3.
    destruct (time_sleep_cases REQUEST_DELAY) as [[Hs _] | [_ Hneg]].
    + split; intros H2;
        [unfold Transcript.fetch_transcript | unfold App.fetch_transcript];
        now rewrite Hs, H1, H2, H3.
    + exfalso. apply (Qlt_irrefl 0). eapply Qle_lt_trans; eassumption.
  - intros e1. apply slice_to_short.
Qed.

Lemma fetch_transcript_failures_bounded_witness :
  Transcript.fetch_transcript 1 no_captions "dQw4w9WgXcQ"
  = ("", false,
     "No transcript available: Subtitles are disabled for this video")
  /\ App.fetch_transcript 1 no_captions "dQw4w9WgXcQ"
     = ("", false,
        "No transcript available: Subtitles are disabled for this video").
Proof.
  pose proof (proj1 (proj2 (fetch_transcript_failures_bounded
                              1 no_captions "dQw4w9WgXcQ"))
                "Subtitles are disabled for this video"
                "Subtitles are disabled for this video"
                "Subtitles are disabled for this video") as H.
  destruct H as [Ht Ha]; [discriminate | reflexivity | reflexivity |].
  split; [apply Ht | apply Ha]; reflexivity.
Defined.

(** ** Metadata *)

(** C7. [get_video_metadata] is a total function of what the fetch does:
    when the request for the watch page raises (network failure, timeout,
    HTTP error status) it returns "Unknown Title", an empty description
    and "Unknown" with the watch-page URL of the video id, in both files;
    so it does when the pause before the request raises; and the [url]
    field is that URL whatever happens. *)
Theorem get_video_metadata_failure_sentinel (REQUEST_DELAY : Q)
    (requests_get : string -> outcome soup) (video_id : string) :
  let sentinel :=
    {| title := "Unknown Title"; description := ""; duration := "Unknown";
       url := "https://www.youtube.com/watch?v=" ++ video_id |} in
  (forall e,
      requests_get ("https://www.youtube.com/watch?v=" ++ video_id) = Raises e
      \/ time_sleep REQUEST_DELAY = Raises e ->
      Transcript.get_video_metadata REQUEST_DELAY requests_get video_id
      = sentinel
      /\ App.get_video_metadata REQUEST_DELAY requests_get video_id = sentinel)
  /\ url (Transcript.get_video_metadata REQUEST_DELAY requests_get video_id)
     = "https://www.youtube.com/watch?v=" ++ video_id
  /\ url (App.get_video_metadata REQUEST_DELAY requests_get video_id)
     = "https://www.youtube.com/watch?v=" ++ video_id.
Proof.
  unfold Transcript.get_video_metadata, App.get_video_metadata.
  cbv zeta. change (watch_url video_id)
    with ("https://www.youtube.com/watch?v=" ++ video_id).
  split.
  - intros e [H | H].
    + rewrite H. destruct (time_sleep REQUEST_DELAY); split; reflexivity.
    + rewrite H. split; reflexivity.
  - destruct (time_sleep REQUEST_DELAY); [|split; reflexivity].
    destruct (requests_get _); split; reflexivity.
Qed.

Lemma get_video_metadata_failure_sentinel_witness :
  Transcript.get_video_metadata 1 (fun _ => Raises "503 Server Error")
    "dQw4w9WgXcQ"
  = {| title := "Unknown Title"; description := ""; duration := "Unknown";
       url := "https://www.youtube.com/watch?v=dQw4w9WgXcQ" |}.
Proof.
  apply (proj1 (get_video_metadata_failure_sentinel
                  1 (fun _ => Raises "503 Server Error") "dQw4w9WgXcQ")
           "503 Server Error").
  left. reflexivity.
Defined.

(** *** The title *)

Lemma contains_cons (sub : string) (c : ascii) (s : string) :
  contains sub (String c s) = false ->
  prefix sub (String c s) = false /\ contains sub s = false.
Proof. cbn [contains]. intros H. now apply orb_false_elim in H. Qed.

Lemma split_absent (sep s : string) :
  contains sep s = false -> split sep s = [s].
Proof.
  unfold split. induction s as [|c s IH]; intros H; [reflexivity|].
  apply contains_cons in H as [Hp Hc]. cbn [split_from].
  now rewrite Hp, (IH Hc).
Qed.

Ltac compare_chars E :=
  repeat match type of E with
         | (if ascii_dec ?a ?b then _ else _) = true =>
             let e := fresh "e" in
             destruct (ascii_dec a b) as [e|];
             [try discriminate e; try subst | discriminate E]
         end.

(** [" - YouTube"] has no border: appended to a text, it is found before
    the end of the text only if the text itself holds it. *)
Lemma site_suffix_not_straddled (c : ascii) (t : string) :
  prefix " - YouTube" (String c t) = false ->
  prefix " - YouTube" (String c t ++ " - YouTube") = false.
Proof.
  intros Hp.
  destruct (prefix " - YouTube" (String c t ++ " - YouTube")) eqn:E;
    [exfalso | reflexivity].
  do 9 (destruct t as [|? t];
        [cbn [append prefix] in E; compare_chars E |]).
  cbn [append prefix] in E, Hp. compare_chars E.
  destruct t; vm_compute in Hp; discriminate Hp.
Qed.

Lemma split_site_suffix (t : string) :
  contains " - YouTube" t = false ->
  split " - YouTube" (t ++ " - YouTube") = [t; ""].
Proof.
  unfold split. induction t as [|c t IH]; intros H; [reflexivity|].
  apply contains_cons in H as [Hp Hc].
  apply site_suffix_not_straddled in Hp.
  cbn [append] in *. cbn [split_from]. now rewrite Hp, (IH Hc).
Qed.

Lemma replace_site_suffix (t : string) :
  contains " - YouTube" t = false ->
  replace " - YouTube" "" (t ++ " - YouTube") = t.
Proof.
  intros H. unfold replace, join. rewrite (split_site_suffix t H).
  cbn [concat append]. apply append_nil_r.
Qed.

(** C8, the claim as stated fails: for a page without [og:title] whose
    [title] element reads "A - YouTube Rewind - YouTube", [app.py] removes
    both occurrences of " - YouTube", where stripping the trailing suffix
    leaves "A - YouTube Rewind". *)
Lemma title_loses_inner_site_name :
  title (App.get_video_metadata 1 (fun _ => Returns rewind_page) "dQw4w9WgXcQ")
  = "A Rewind"
  /\ stated_title rewind_page = "A - YouTube Rewind".
Proof. split; vm_compute; reflexivity. Qed.

(** [transcript.py] has no second step: a page with a [title] element and
    no [og:title] is titled "Unknown Title" there. *)
Lemma transcript_title_ignores_title_element :
  title (Transcript.get_video_metadata 1 (fun _ => Returns plain_page)
           "dQw4w9WgXcQ")
  = "Unknown Title"
  /\ title (App.get_video_metadata 1 (fun _ => Returns plain_page)
              "dQw4w9WgXcQ")
     = "Never Gonna Give You Up".
Proof. split; vm_compute; reflexivity. Qed.

(** C8, as amended. For a fetched watch page, the title is the [content]
    attribute of the [og:title] meta tag when the tag is found, or
    "Unknown Title" when the tag has no such attribute (both files); with
    no such tag, in [app.py], it is the text of the [title] element with
    every occurrence of " - YouTube" removed and the result stripped of
    surrounding whitespace, which for a text that holds " - YouTube" only
    as its ending is the stripped text before it; with neither the tag
    nor the element it is "Unknown Title" (both files). *)
Theorem page_title_chain (REQUEST_DELAY : Q)
    (requests_get : string -> outcome soup) (video_id : string) (page : soup) :
  (0 <= REQUEST_DELAY)%Q ->
  requests_get ("https://www.youtube.com/watch?v=" ++ video_id) = Returns page ->
  let in_transcript :=
    title (Transcript.get_video_metadata REQUEST_DELAY requests_get video_id) in
  let in_app :=
    title (App.get_video_metadata REQUEST_DELAY requests_get video_id) in
  (forall content, og_title page = Some (Some content) ->
     in_transcript = content /\ in_app = content)
  /\ (og_title page = Some None ->
      in_transcript = "Unknown Title" /\ in_app = "Unknown Title")
  /\ (forall text, og_title page = None -> title_element page = Some text ->
        in_app = strip (replace " - YouTube" "" text))
  /\ (forall t, og_title page = None ->
        title_element page = Some (t ++ " - YouTube") ->
        contains " - YouTube" t = false ->
        in_app = strip t)
  /\ (og_title page = None -> title_element page = None ->
      in_transcript = "Unknown Title" /\ in_app = "Unknown Title").
Proof.
  intros Hd Hget.
  unfold Transcript.get_video_metadata, App.get_video_metadata.
  destruct (time_sleep_cases REQUEST_DELAY) as [[-> _] | [_ Hneg]].
  2:{ exfalso. apply (Qlt_irrefl 0). eapply Qle_lt_trans; eassumption. }
  cbv zeta. unfold watch_url. rewrite Hget. cbn [title].
  unfold Transcript.page_title, App.page_title.
  repeat split; intros;
    repeat match goal with H : _ = _ |- _ => rewrite H end;
    try reflexivity.
  now rewrite replace_site_suffix.
Qed.

Lemma page_title_chain_witness :
  title (App.get_video_metadata 1 (fun _ => Returns plain_page) "dQw4w9WgXcQ")
  = strip "Never Gonna Give You Up".
Proof.
  refine (proj1 (proj2 (proj2 (proj2
            (page_title_chain 1 (fun _ => Returns plain_page) "dQw4w9WgXcQ"
               plain_page _ _))))
            "Never Gonna Give You Up" _ _ _);
    [discriminate | reflexivity ..].
Defined.

(** ** The batch endpoint *)

Lemma lookup_some_truthy (key : string) (fields : list (string * json))
    (v : json) :
  lookup key fields = Some v -> truthy (JObj fields) = true.
Proof. destruct fields; [discriminate | reflexivity]. Qed.

(** C9. A request whose [urls] array is empty, or longer than five (six,
    say), is answered without any per-URL work: no extraction, no fetch,
    no pause.  The answer is the validation failure 400 once the rate
    limiter has admitted the request, and 429 when it has not. *)
Theorem batch_rejects_empty_and_oversized (REQUEST_DELAY : Q)
    (MAX_REQUESTS_PER_MINUTE : Z) (api : transcript_api)
    (type_error : json -> string) (request_timestamps : list Q) (now : Q)
    (utcnow : string) (fields : list (string * json)) (urls : list json) :
  lookup "urls" fields = Some (JArr urls) ->
  List.length urls = 0 \/ List.length urls = 6 \/ 5 < List.length urls ->
  let admitted :=
    fst (rate_limit_check MAX_REQUESTS_PER_MINUTE now request_timestamps) in
  let reply :=
    snd (Transcript.get_batch_transcripts REQUEST_DELAY
           MAX_REQUESTS_PER_MINUTE api type_error request_timestamps now
           utcnow (Returns (JObj fields))) in
  Transcript.effects reply = []
  /\ Transcript.status reply = (if admitted then 400 else 429)%Z
  /\ (admitted = true ->
      Transcript.body reply
      = JObj [("success", JBool false);
              ("error",
               JStr (if Nat.eqb (List.length urls) 0
                     then "URLs must be a non-empty array"
                     else "Batch size limited to 5 URLs"))]).
Proof.
  intros Hurls Hlen. cbv zeta. unfold Transcript.get_batch_transcripts.
  destruct (rate_limit_check MAX_REQUESTS_PER_MINUTE now request_timestamps)
    as [admitted left_behind].
  cbn [fst snd]. destruct admitted; cbn [negb].
  2:{ repeat split. discriminate. }
  rewrite (lookup_some_truthy _ _ _ Hurls), Hurls. cbn [negb].
  unfold Transcript.validate_and_run.
  destruct (Nat.eqb (List.length urls) 0) eqn:E0; [now repeat split|].
  assert (H5 : Nat.ltb 5 (List.length urls) = true).
  { apply Nat.ltb_lt. apply Nat.eqb_neq in E0. lia. }
  rewrite H5. now repeat split.
Qed.

Lemma batch_rejects_empty_and_oversized_witness :
  Transcript.status
    (snd (Transcript.get_batch_transcripts 1 30 no_captions (fun _ => "")
            [] 0 "2024-01-01T00:00:00" (Returns six_urls)))
  = 400%Z
  /\ Transcript.status
       (snd (Transcript.get_batch_transcripts 1 30 no_captions (fun _ => "")
               [] 0 "2024-01-01T00:00:00" (Returns empty_batch)))
     = 400%Z.
Proof.
  split.
  - refine (proj1 (proj2
              (batch_rejects_empty_and_oversized 1 30 no_captions
                 (fun _ => "") [] 0 "2024-01-01T00:00:00"
                 [("urls", JArr (repeat (JStr "https://youtu.be/dQw4w9WgXcQ") 6))]
                 (repeat (JStr "https://youtu.be/dQw4w9WgXcQ") 6) _ _)));
      [reflexivity | right; left; reflexivity].
  - refine (proj1 (proj2
              (batch_rejects_empty_and_oversized 1 30 no_captions
                 (fun _ => "") [] 0 "2024-01-01T00:00:00"
                 [("urls", JArr [])] [] _ _)));
      [reflexivity | left; reflexivity].
Defined.

(** ** Rate limiter *)

Lemma within_minute_iff (now ts : Q) :
  within_minute now ts = true <-> (now - ts < 60)%Q.
Proof.
  unfold within_minute. rewrite Qlt_alt.
  destruct (now - ts ?= 60)%Q; split; congruence.
Qed.

Lemma within_minute_now (now : Q) : within_minute now now = true.
Proof. apply within_minute_iff. lra. Qed.

Lemma filter_same_length {A : Type} (f : A -> bool) (l : list A) :
  List.length (filter f l) = List.length l -> filter f l = l.
Proof. intros H. now apply forallb_filter_id, filter_length_forallb. Qed.

Section RateLimiterFacts.
Variable MAX : Z.

Lemma rate_limit_check_unfold (now : Q) (request_timestamps : list Q) :
  rate_limit_check MAX now request_timestamps
  = let kept := filter (within_minute now) request_timestamps in
    if (MAX <=? Z.of_nat (List.length kept))%Z
    then (false, kept)
    else (true, (kept ++ [now])%list).
Proof. reflexivity. Qed.

Lemma rate_limit_check_rejects (now : Q) (st : list Q) :
  fst (rate_limit_check MAX now st) = false
  <-> (MAX <= Z.of_nat (List.length (filter (within_minute now) st)))%Z.
Proof.
  rewrite rate_limit_check_unfold. cbv zeta.
  destruct (Z.leb_spec MAX (Z.of_nat (List.length (filter (within_minute now) st))));
    cbn [fst]; split; intros; try lia; congruence.
Qed.

Lemma rate_limit_check_state (now : Q) (st : list Q) :
  snd (rate_limit_check MAX now st)
  = (filter (within_minute now) st
     ++ if fst (rate_limit_check MAX now st) then [now] else [])%list.
Proof.
  rewrite rate_limit_check_unfold. cbv zeta.
  destruct (MAX <=? _)%Z; cbn [fst snd]; [now rewrite app_nil_r | reflexivity].
Qed.

Lemma kept_all_recent (now : Q) (st : list Q) (ts : Q) :
  In ts (snd (rate_limit_check MAX now st)) -> (now - ts < 60)%Q.
Proof.
  rewrite rate_limit_check_state, in_app_iff, filter_In.
  intros [[_ H] | H]; [now apply within_minute_iff|].
  destruct (fst _); [|contradiction].
  destruct H as [<- | []]. lra.
Qed.

(** Inside a window of sixty seconds nothing taken in the window is
    purged, so every admission adds one to what the window holds. *)
Lemma since_after_call (lo now : Q) (st : list Q) :
  (lo <= now)%Q -> (now < lo + 60)%Q ->
  List.length (since lo (snd (rate_limit_check MAX now st)))
  = List.length (since lo st)
    + (if fst (rate_limit_check MAX now st) then 1 else 0).
Proof.
  intros Hlo Hhi. rewrite rate_limit_check_state. unfold since.
  rewrite filter_app, length_app. f_equal.
  - f_equal. induction st as [|ts st IH]; [reflexivity|].
    cbn [filter]. destruct (within_minute now ts) eqn:Ew; cbn [filter].
    + now rewrite IH.
    + destruct (Qle_bool lo ts) eqn:El; [|exact IH].
      exfalso. apply Qle_bool_iff in El.
      assert (within_minute now ts = true) by (apply within_minute_iff; lra).
      congruence.
  - destruct (fst _); [|reflexivity]. cbn [filter].
    apply Qle_bool_iff in Hlo. now rewrite Hlo.
Qed.

Lemma since_after_calls (lo : Q) (times : list Q) (st : list Q) :
  (forall t, In t times -> (lo <= t)%Q /\ (t < lo + 60)%Q) ->
  List.length (since lo (snd (calls MAX times st)))
  = List.length (since lo st) + admissions (fst (calls MAX times st)).
Proof.
  revert st. induction times as [|t times IH]; intros st Hw.
  - unfold admissions. cbn [calls fst snd count_occ]. lia.
  - cbn [calls].
    pose proof (since_after_call lo t st) as Hstep.
    destruct (rate_limit_check MAX t st) as [ok st1] eqn:E1.
    specialize (IH st1).
    destruct (calls MAX times st1) as [answers st2] eqn:E2.
    cbn [fst snd] in *.
    rewrite IH by (intros; apply Hw; now right).
    rewrite Hstep by (apply Hw; now left).
    unfold admissions. destruct ok; cbn [count_occ];
      destruct (Bool.bool_dec _ _); try congruence; lia.
Qed.

Lemma since_within (lo now : Q) (st : list Q) :
  (now < lo + 60)%Q ->
  List.length (since lo st) <= List.length (filter (within_minute now) st).
Proof.
  intros Hhi. unfold since. induction st as [|ts st IH]; [reflexivity|].
  cbn [filter]. destruct (Qle_bool lo ts) eqn:El.
  - apply Qle_bool_iff in El.
    assert (within_minute now ts = true) as -> by (apply within_minute_iff; lra).
    cbn [List.length]. lia.
  - destruct (within_minute now ts); cbn [List.length]; lia.
Qed.

Lemma expired_count (now : Q) (st : list Q) :
  List.length (filter (within_minute now) st) + List.length (expired now st)
  = List.length st.
Proof. apply filter_length. Qed.

(** The list never grows past the maximum. *)
Lemma reachable_length (st : list Q) :
  reachable MAX st -> (Z.of_nat (List.length st) <= Z.max 0 MAX)%Z.
Proof.
  induction 1 as [|now st Hst IH]; [cbn; lia|].
  rewrite rate_limit_check_unfold. cbv zeta.
  pose proof (filter_length_le (within_minute now) st).
  destruct (Z.leb_spec MAX (Z.of_nat (List.length (filter (within_minute now) st))));
    cbn [snd]; [lia|].
  rewrite length_app. cbn [List.length]. lia.
Qed.

(** So a call that is rejected found nothing to purge. *)
Lemma rejected_call_purges_nothing (now : Q) (st : list Q) :
  reachable MAX st ->
  fst (rate_limit_check MAX now st) = false ->
  filter (within_minute now) st = st
  /\ snd (rate_limit_check MAX now st) = st.
Proof.
  intros Hst Hrej. rewrite rate_limit_check_state, Hrej, app_nil_r.
  apply rate_limit_check_rejects in Hrej.
  apply reachable_length in Hst.
  pose proof (filter_length_le (within_minute now) st).
  assert (filter (within_minute now) st = st) as ->; [|now split].
  destruct (Z.le_gt_cases 0 MAX).
  - apply filter_same_length. lia.
  - destruct st; [reflexivity | cbn [List.length] in Hst; lia].
Qed.
End RateLimiterFacts.

(** C3. A call of [rate_limit_check] at clock reading [now] keeps exactly
    the stored timestamps less than 60 seconds old, so every timestamp
    older than that is gone afterwards; if at least the configured
    maximum remain it answers [False] and stores what remains, without
    [now]; otherwise it appends [now] and answers [True].  Hence, once a
    run of calls inside one 60-second window has had as many admissions
    as the maximum, the next call in the window is rejected; and a call
    finds room for as many requests as had expired: the count that
    remains is the stored count less the expired ones. *)
Theorem rate_limit_check_sliding_window (MAX : Z) :
  (forall now st,
      let kept := filter (within_minute now) st in
      (forall ts, In ts st -> (60 <= now - ts)%Q ->
         ~ In ts (snd (rate_limit_check MAX now st)))
      /\ (forall ts, In ts st -> (now - ts < 60)%Q ->
            In ts (snd (rate_limit_check MAX now st)))
      /\ rate_limit_check MAX now st
         = (if (MAX <=? Z.of_nat (List.length kept))%Z
            then (false, kept)
            else (true, (kept ++ [now])%list))
      /\ (Z.of_nat (List.length kept)
          = Z.of_nat (List.length st) - Z.of_nat (List.length (expired now st)))%Z
      /\ (fst (rate_limit_check MAX now st) = true
          <-> (Z.of_nat (List.length st)
               - Z.of_nat (List.length (expired now st)) < MAX)%Z))
  /\ (forall lo times now st,
        (forall t, In t (times ++ [now]) -> (lo <= t)%Q /\ (t < lo + 60)%Q) ->
        Z.of_nat (admissions (fst (calls MAX times st))) = MAX ->
        fst (rate_limit_check MAX now (snd (calls MAX times st))) = false).
Proof.
  split.
  - intros now st kept. pose proof (expired_count now st) as Hcount.
    fold kept in Hcount. repeat split.
    + intros ts _ Hold Hin. apply kept_all_recent in Hin. lra.
    + intros ts Hin Hrecent. rewrite rate_limit_check_state.
      apply in_or_app. left. apply filter_In.
      split; [assumption | now apply within_minute_iff].
    + lia.
    + intros Hadm.
      destruct (Z.lt_ge_cases (Z.of_nat (List.length kept)) MAX) as [|Hge];
        [lia|].
      apply (proj2 (rate_limit_check_rejects MAX now st)) in Hge.
      congruence.
    + intros Hroom.
      destruct (fst (rate_limit_check MAX now st)) eqn:E; [reflexivity|].
      apply rate_limit_check_rejects in E. fold kept in E. lia.
  - intros lo times now st Hw Hadm. apply rate_limit_check_rejects.
    assert (Hnow : (now < lo + 60)%Q).
    { apply Hw, in_or_app. right. now left. }
    pose proof (since_within lo now (snd (calls MAX times st)) Hnow) as Hle.
    rewrite since_after_calls in Hle.
    + lia.
    + intros t Ht. apply Hw, in_or_app. now left.
Qed.

Lemma rate_limit_check_sliding_window_witness :
  fst (rate_limit_check 2 2 (snd (calls 2 [0%Q; 1%Q] []))) = false.
Proof.
  refine (proj2 (rate_limit_check_sliding_window 2) 0%Q [0%Q; 1%Q] 2%Q [] _ _).
  - intros t [<- | [<- | [<- | []]]]; split; discriminate || reflexivity.
  - reflexivity.
Defined.

(** The default configuration at work: thirty calls one second apart are
    admitted, the thirty-first is rejected and leaves the list alone, and
    a call 61 seconds after the first finds the two oldest timestamps
    expired and is admitted. *)
Lemma thirty_admissions_then_rejection :
  let seconds := map (fun n => inject_Z (Z.of_nat n)) (seq 0 30) in
  fst (calls 30 (seconds ++ [30%Q; 61%Q]) [])
  = (repeat true 30 ++ [false; true])%list
  /\ snd (calls 30 (seconds ++ [30%Q]) []) = snd (calls 30 seconds [])
  /\ List.length (snd (calls 30 (seconds ++ [30%Q; 61%Q]) [])) = 29.
Proof. vm_compute. repeat split. Qed.

(** C10, the claim as stated fails: the list the process holds is never
    changed by a rejected call.  It never exceeds the maximum, so when as
    many timestamps as the maximum are still recent none has expired. *)
Lemma rejected_call_changes_no_reachable_list :
  ~ exists (MAX : Z) (st : list Q) (now : Q),
      reachable MAX st
      /\ fst (rate_limit_check MAX now st) = false
      /\ snd (rate_limit_check MAX now st) <> st.
Proof.
  intros (MAX & st & now & Hst & Hrej & Hchanged).
  apply Hchanged. now apply rejected_call_purges_nothing.
Qed.

(** C10, as amended. With a non-negative configured maximum, after every
    call the stored list has at most that many timestamps, each of them
    less than 60 seconds older than the call's clock reading; a rejected
    call stores the purged list and appends nothing, and on the lists the
    process can hold that purge removes nothing, so a rejected call
    leaves the list as it was. *)
Theorem rate_limiter_invariant (MAX : Z) (now : Q) (st : list Q) :
  (0 <= MAX)%Z -> reachable MAX st ->
  let answer := fst (rate_limit_check MAX now st) in
  let left_behind := snd (rate_limit_check MAX now st) in
  (Z.of_nat (List.length left_behind) <= MAX)%Z
  /\ (forall ts, In ts left_behind -> (now - ts < 60)%Q)
  /\ (answer = false ->
      left_behind = filter (within_minute now) st /\ left_behind = st).
Proof.
  intros Hmax Hst. cbv zeta. split; [|split].
  - pose proof (reachable_length MAX _ (reachable_call MAX now st Hst)). lia.
  - intros ts. apply kept_all_recent.
  - intros Hrej.
    destruct (rejected_call_purges_nothing MAX now st Hst Hrej) as [Hf Hs].
    split; [now rewrite Hf | exact Hs].
Qed.

Lemma rate_limiter_invariant_witness :
  snd (rate_limit_check 2 2 [0%Q; 1%Q]) = [0%Q; 1%Q].
Proof.
  refine (proj2 (proj2 (proj2
            (rate_limiter_invariant 2 2%Q [0%Q; 1%Q] _
               (reachable_call 2 1%Q _
                  (reachable_call 2 0%Q _ (reachable_start 2))))) _)).
  - discriminate.
  - reflexivity.
Defined.

(** ** Splitting at a separator that cannot overlap itself *)

Lemma prefix_append (sep s : string) : prefix sep (sep ++ s) = true.
Proof.
  induction sep as [|c sep IH]; cbn [append prefix]; [now destruct s|].
  destruct (ascii_dec c c); [exact IH | contradiction].
Qed.

Lemma contains_append (sep p s : string) : contains sep (p ++ sep ++ s) = true.
Proof.
  induction p as [|c p IH]; cbn [append].
  - pose proof (prefix_append sep s) as H.
    destruct sep as [|c0 sep]; [now destruct s|].
    cbn [append contains] in *. now rewrite H.
  - cbn [contains]. rewrite IH. apply orb_true_r.
Qed.

Lemma split_from_passes (sep x s : string) :
  split_from sep (String.length x) (x ++ s) = split_from sep 0 s.
Proof.
  induction x as [|c x IH]; [reflexivity|].
  cbn [String.length append split_from]. exact IH.
Qed.

(** A separator at the start gives an empty first part. *)
Lemma split_from_separator (c0 : ascii) (sep' r : string) :
  split_from (String c0 sep') 0 (String c0 sep' ++ r)
  = "" :: split_from (String c0 sep') 0 r.
Proof.
  pose proof (prefix_append (String c0 sep') r) as Hp.
  cbn [append] in *. cbn [split_from]. rewrite Hp.
  replace (String.length (String c0 sep') - 1) with (String.length sep')
    by (cbn [String.length]; lia).
  now rewrite split_from_passes.
Qed.

Section BorderFree.
Variable sep : string.
Hypothesis sep_nonempty : sep <> "".
(** An occurrence of [sep] that starts before another one ends before it. *)
Hypothesis sep_border_free :
  forall c x y, prefix sep (String c x ++ sep ++ y) = true ->
                String.length sep <= S (String.length x).

(** The part after the last separator. *)
Lemma split_from_last (r : string) :
  contains sep r = false ->
  forall p n, n <= String.length p ->
  exists parts, parts <> []
                /\ split_from sep n (p ++ sep ++ r) = (parts ++ [r])%list.
Proof.
  intros Hr. pose proof (split_absent sep r Hr) as Habs. unfold split in Habs.
  assert (Hbase : split_from sep 0 (sep ++ r) = [""; r]).
  { destruct sep as [|c0 sep']; [contradiction|].
    now rewrite split_from_separator, Habs. }
  induction p as [|c p IH]; intros n Hn.
  - cbn [String.length] in Hn. replace n with 0 by lia. cbn [append].
    exists [""]. split; [discriminate|]. exact Hbase.
  - cbn [append]. destruct n as [|n]; cbn [split_from].
    + destruct (prefix sep (String c (p ++ sep ++ r))) eqn:E.
      * change (String c (p ++ sep ++ r)) with (String c p ++ sep ++ r) in E.
        apply sep_border_free in E.
        destruct (IH (String.length sep - 1)) as (parts & Hne & ->); [lia|].
        exists ("" :: parts). split; [discriminate | reflexivity].
      * destruct (IH 0) as (parts & Hne & ->); [lia|].
        destruct parts as [|part parts]; [contradiction|].
        exists (String c part :: parts). split; [discriminate | reflexivity].
    + cbn [String.length] in Hn. apply IH. lia.
Qed.

Lemma last_part_split (p r : string) :
  contains sep r = false -> last_part (split sep (p ++ sep ++ r)) = r.
Proof.
  intros Hr. destruct (split_from_last r Hr p 0) as (parts & _ & H); [lia|].
  unfold last_part, split. rewrite H. apply last_last.
Qed.
End BorderFree.

(** The part before the first occurrence of a one-character separator. *)
Lemma first_part_split (c0 : ascii) (t rest : string) :
  contains (String c0 "") t = false ->
  rest = "" \/ (exists rest', rest = String c0 rest') ->
  first_part (split (String c0 "") (t ++ rest)) = t.
Proof.
  intros Ht [-> | [rest' ->]].
  - rewrite append_nil_r, split_absent by assumption. reflexivity.
  - unfold first_part, split. induction t as [|c t IH]; cbn [append split_from].
    + cbn [prefix]. destruct (ascii_dec c0 c0); [|contradiction].
      now destruct rest'.
    + apply contains_cons in Ht as [Hp Hc]. cbn [prefix] in *.
      destruct (ascii_dec c0 c); [now destruct t|].
      specialize (IH Hc).
      destruct (split_from (String c0 "") 0 (t ++ String c0 rest'));
        cbn [hd] in *; now rewrite IH.
Qed.

Lemma watch_border_free (c : ascii) (x y : string) :
  prefix "watch?v=" (String c x ++ "watch?v=" ++ y) = true ->
  String.length "watch?v=" <= S (String.length x).
Proof.
  intros E.
  do 7 (destruct x as [|? x];
        [exfalso; cbn [append prefix] in E; compare_chars E |]).
  cbn [String.length]. lia.
Qed.

Lemma short_link_border_free (c : ascii) (x y : string) :
  prefix "youtu.be/" (String c x ++ "youtu.be/" ++ y) = true ->
  String.length "youtu.be/" <= S (String.length x).
Proof.
  intros E.
  do 8 (destruct x as [|? x];
        [exfalso; cbn [append prefix] in E; compare_chars E |]).
  cbn [String.length]. lia.
Qed.

Lemma embed_border_free (c : ascii) (x y : string) :
  prefix "embed/" (String c x ++ "embed/" ++ y) = true ->
  String.length "embed/" <= S (String.length x).
Proof.
  intros E.
  do 5 (destruct x as [|? x];
        [exfalso; cbn [append prefix] in E; compare_chars E |]).
  cbn [String.length]. lia.
Qed.

(** ** Where the candidate id comes from *)

(** A watch URL: the token after the last [watch?v=], up to the next
    [&]. *)
Lemma candidate_of_watch_url (base token rest : string) :
  contains "&" token = false ->
  rest = "" \/ (exists rest', rest = String "&" rest') ->
  contains "watch?v=" (token ++ rest) = false ->
  candidate_id (base ++ "watch?v=" ++ token ++ rest) = Some token.
Proof.
  intros Ht Hrest Hlast. unfold candidate_id.
  rewrite contains_append.
  rewrite (last_part_split "watch?v=");
    [| discriminate | exact watch_border_free | assumption].
  now rewrite first_part_split.
Qed.

(** A short link: the token after the last [youtu.be/], up to the next
    [?]. *)
Lemma candidate_of_short_link (base token rest : string) :
  contains "watch?v=" (base ++ "youtu.be/" ++ token ++ rest) = false ->
  contains "?" token = false ->
  rest = "" \/ (exists rest', rest = String "?" rest') ->
  contains "youtu.be/" (token ++ rest) = false ->
  candidate_id (base ++ "youtu.be/" ++ token ++ rest) = Some token.
Proof.
  intros Hw Ht Hrest Hlast. unfold candidate_id.
  rewrite Hw, contains_append.
  rewrite (last_part_split "youtu.be/");
    [| discriminate | exact short_link_border_free | assumption].
  now rewrite first_part_split.
Qed.

(** An embed URL: the token after the last [embed/], up to the next [?]. *)
Lemma candidate_of_embed_url (base token rest : string) :
  contains "watch?v=" (base ++ "embed/" ++ token ++ rest) = false ->
  contains "youtu.be/" (base ++ "embed/" ++ token ++ rest) = false ->
  contains "?" token = false ->
  rest = "" \/ (exists rest', rest = String "?" rest') ->
  contains "embed/" (token ++ rest) = false ->
  candidate_id (base ++ "embed/" ++ token ++ rest) = Some token.
Proof.
  intros Hw Hs Ht Hrest Hlast. unfold candidate_id.
  rewrite Hw, Hs, contains_append.
  rewrite (last_part_split "embed/");
    [| discriminate | exact embed_border_free | assumption].
  now rewrite first_part_split.
Qed.

(** [app.py] on the three shapes: an embedded token of eleven characters
    is returned as it is. *)
Theorem app_extract_video_id_returns_token (base token rest : string) :
  String.length token = 11 ->
  (contains "&" token = false ->
   rest = "" \/ (exists rest', rest = String "&" rest') ->
   contains "watch?v=" (token ++ rest) = false ->
   App.extract_video_id (base ++ "watch?v=" ++ token ++ rest) = Some token)
  /\ (contains "watch?v=" (base ++ "youtu.be/" ++ token ++ rest) = false ->
      contains "?" token = false ->
      rest = "" \/ (exists rest', rest = String "?" rest') ->
      contains "youtu.be/" (token ++ rest) = false ->
      App.extract_video_id (base ++ "youtu.be/" ++ token ++ rest) = Some token)
  /\ (contains "watch?v=" (base ++ "embed/" ++ token ++ rest) = false ->
      contains "youtu.be/" (base ++ "embed/" ++ token ++ rest) = false ->
      contains "?" token = false ->
      rest = "" \/ (exists rest', rest = String "?" rest') ->
      contains "embed/" (token ++ rest) = false ->
      App.extract_video_id (base ++ "embed/" ++ token ++ rest) = Some token).
Proof.
  intros Hlen. repeat split; intros; apply app_extract_video_id_iff; split;
    auto using candidate_of_watch_url, candidate_of_short_link,
      candidate_of_embed_url.
Qed.

Lemma app_extract_video_id_returns_token_witness :
  App.extract_video_id "https://www.youtube.com/watch?v=dQw4w9WgXcQ&t=30s"
  = Some "dQw4w9WgXcQ".
Proof.
  refine (proj1 (app_extract_video_id_returns_token
                   "https://www.youtube.com/" "dQw4w9WgXcQ" "&t=30s" _) _ _ _);
    [reflexivity | reflexivity | right; eexists; reflexivity | reflexivity].
Defined.

(** ** The fallback pattern *)

Lemma re_search_video_id (s : string) (g : captures) :
  re_search video_id_pattern s = Some g ->
  exists token, group g 1 = Some token /\ String.length token = 11.
Proof.
  assert (M : forall s0 g0, re_match video_id_pattern s0 = Some g0 ->
              exists token, group g0 1 = Some token
                            /\ String.length token = 11).
  { intros s0 g0 E. unfold re_match, video_id_pattern in E.
    apply seq_group_times_result in E as (s1 & g1 & s2 & [= <-] & L).
    eexists. split; [reflexivity|]. unfold consumed.
    replace (String.length s1 - String.length s2) with 11 by lia.
    apply substring_length. lia. }
  induction s as [|c s IH]; cbn [re_search];
    destruct (re_match video_id_pattern _) as [g0|] eqn:E;
    try discriminate; try exact IH; intros [= <-]; eauto.
Qed.

(** The token the fallback pattern captures always has eleven characters:
    in [transcript.py] a token of another length can only come from one
    of the three [split] branches. *)
Theorem fallback_token_has_eleven_characters (youtube_url token : string) :
  contains "watch?v=" youtube_url = false ->
  contains "youtu.be/" youtube_url = false ->
  contains "embed/" youtube_url = false ->
  Transcript.extract_video_id youtube_url = Some token ->
  String.length token = 11
  /\ App.extract_video_id youtube_url = Some token.
Proof.
  intros Hw Hs He. unfold Transcript.extract_video_id. intros H.
  assert (L : String.length token = 11).
  { unfold candidate_id in H. rewrite Hw, Hs, He in H.
    destruct (re_search video_id_pattern youtube_url) as [g|] eqn:E;
      [|discriminate].
    apply re_search_video_id in E as (t & Hg & Ht). congruence. }
  split; [exact L|]. now apply app_extract_video_id_iff.
Qed.

Lemma fallback_token_has_eleven_characters_witness :
  String.length "dQw4w9WgXcQ" = 11
  /\ App.extract_video_id "https://www.youtube.com/v/dQw4w9WgXcQ"
     = Some "dQw4w9WgXcQ".
Proof.
  apply (fallback_token_has_eleven_characters
           "https://www.youtube.com/v/dQw4w9WgXcQ" "dQw4w9WgXcQ");
    reflexivity.
Defined.

(** ** At most the maximum per window *)

Lemma reachable_calls (MAX : Z) (times : list Q) (st : list Q) :
  reachable MAX st -> reachable MAX (snd (calls MAX times st)).
Proof.
  revert st. induction times as [|t times IH]; intros st Hst; [exact Hst|].
  cbn [calls]. pose proof (reachable_call MAX t st Hst) as H1.
  destruct (rate_limit_check MAX t st) as [ok st1]. cbn [snd] in H1.
  specialize (IH st1 H1). destruct (calls MAX times st1) as [answers st2].
  exact IH.
Qed.

(** Among calls that fall inside one window of 60 seconds, no more than
    the configured maximum are admitted. *)
Theorem admissions_per_window_bounded (MAX : Z) (lo : Q) (times : list Q)
    (st : list Q) :
  (0 <= MAX)%Z -> reachable MAX st ->
  (forall t, In t times -> (lo <= t)%Q /\ (t < lo + 60)%Q) ->
  (Z.of_nat (admissions (fst (calls MAX times st))) <= MAX)%Z.
Proof.
  intros Hmax Hst Hw.
  pose proof (since_after_calls MAX lo times st Hw) as Hcount.
  pose proof (reachable_length MAX _ (reachable_calls MAX times st Hst)) as Hlen.
  pose proof (filter_length_le (Qle_bool lo) (snd (calls MAX times st))) as Hle.
  unfold since in Hcount. lia.
Qed.

Lemma admissions_per_window_bounded_witness :
  (Z.of_nat (admissions (fst (calls 2 [0%Q; 1%Q; 2%Q; 3%Q] []))) <= 2)%Z.
Proof.
  refine (admissions_per_window_bounded 2 0%Q [0%Q; 1%Q; 2%Q; 3%Q] [] _
            (reachable_start 2) _).
  - discriminate.
  - intros t [<- | [<- | [<- | [<- | []]]]]; split; discriminate || reflexivity.
Defined.

(** ** The single-transcript route *)

(** The logged functions return what the plain ones do. *)
Lemma fetch_transcript_log_result (REQUEST_DELAY : Q) (api : transcript_api)
    (video_id : string) :
  snd (Transcript.fetch_transcript_log REQUEST_DELAY api video_id)
  = Transcript.fetch_transcript REQUEST_DELAY api video_id
  /\ snd (App.fetch_transcript_log REQUEST_DELAY api video_id)
     = App.fetch_transcript REQUEST_DELAY api video_id.
Proof.
  unfold Transcript.fetch_transcript_log, Transcript.fetch_transcript,
    App.fetch_transcript_log, App.fetch_transcript.
  destruct (time_sleep REQUEST_DELAY); [|now split].
  destruct (get_transcript api video_id None); [now split|].
  split.
  - destruct (get_transcript api video_id _); [reflexivity|].
    now destruct (list_transcripts api video_id).
  - destruct (get_transcript api video_id _); [reflexivity|].
    now destruct (list_transcripts api video_id).
Qed.

Lemma get_video_metadata_log_result (REQUEST_DELAY : Q)
    (requests_get : string -> outcome soup) (video_id : string) :
  snd (Transcript.get_video_metadata_log REQUEST_DELAY requests_get video_id)
  = Transcript.get_video_metadata REQUEST_DELAY requests_get video_id
  /\ snd (App.get_video_metadata_log REQUEST_DELAY requests_get video_id)
     = App.get_video_metadata REQUEST_DELAY requests_get video_id.
Proof.
  unfold Transcript.get_video_metadata_log, Transcript.get_video_metadata,
    App.get_video_metadata_log, App.get_video_metadata.
  destruct (time_sleep REQUEST_DELAY); now split.
Qed.

Section Route.
Variable max : Z.
Variables missing_message invalid_message : string.
Variable extract : json -> option string.
Variable fetch : string -> list call * (string * bool * string).
Variable scrape : string -> list call * metadata.
Variable type_error : json -> string.

Let route := transcript_route max missing_message invalid_message extract
               fetch scrape type_error.

(** The route touches the global list through the rate limiter only. *)
Lemma route_list (st : list Q) (now : Q) (utcnow : string)
    (get_json : outcome json) :
  fst (route st now utcnow get_json) = snd (rate_limit_check max now st).
Proof.
  unfold route, transcript_route.
  now destruct (rate_limit_check max now st).
Qed.

Lemma response_code (utcnow : string) (youtube_url include_metadata : json)
    (video_id : string) :
  let r := transcript_response fetch scrape utcnow youtube_url
             include_metadata video_id in
  code r = (if snd (fst (snd (fetch video_id))) then 200 else 404)%Z
  /\ calls_made r
     = (fst (fetch video_id)
        ++ if truthy include_metadata then fst (scrape video_id) else [])%list.
Proof.
  unfold transcript_response. destruct (snd (fetch video_id)) as [[t ok] e].
  cbn [fst snd]. now destruct ok.
Qed.

(** Every answer of the route is of one of four kinds. *)
Lemma route_cases (st : list Q) (now : Q) (utcnow : string)
    (get_json : outcome json) :
  let r := snd (route st now utcnow get_json) in
  (fst (rate_limit_check max now st) = false
   /\ r = {| code := 429;
             payload :=
               [("success", JBool false);
                ("error", JStr "Rate limit exceeded. Try again later.");
                ("rate_limit",
                 JObj [("max_requests_per_minute", json_int max);
                       ("current_requests",
                        json_nat (List.length
                                    (snd (rate_limit_check max now st))))])];
             calls_made := [] |})
  \/ (fst (rate_limit_check max now st) = true
      /\ ((exists e, r = refusal 500 ("Internal server error: " ++ e)
                     /\ (get_json = Raises e
                         \/ exists data, get_json = Returns data
                                         /\ e = type_error data
                                         /\ forall fields, data <> JObj fields))
          \/ r = refusal 400 missing_message
          \/ (r = refusal 400 invalid_message
              /\ exists fields youtube_url,
                   get_json = Returns (JObj fields)
                   /\ lookup "url" fields = Some youtube_url)
          \/ (exists fields youtube_url video_id,
                 get_json = Returns (JObj fields)
                 /\ lookup "url" fields = Some youtube_url
                 /\ extract youtube_url = Some video_id
                 /\ video_id <> ""
                 /\ r = transcript_response fetch scrape utcnow youtube_url
                          (match lookup "include_metadata" fields with
                           | Some v => v
                           | None => JBool true
                           end) video_id))).
Proof.
  unfold route, transcript_route.
  destruct (rate_limit_check max now st) as [admitted kept]. cbn [fst snd].
  destruct admitted; cbn [negb]; [right; split; [reflexivity|] | now left].
  destruct get_json as [data | e]; [|left; eauto].
  destruct (truthy data) eqn:Et; cbn [negb]; [|now right; left].
  destruct data as [| b | q | s | items | fields].
  - discriminate.
  - left. eexists. split; [reflexivity|]. right. eexists.
    repeat split. discriminate.
  - left. eexists. split; [reflexivity|]. right. eexists.
    repeat split. discriminate.
  - destruct (contains "url" s); [|now right; left].
    left. eexists. split; [reflexivity|]. right. eexists.
    repeat split. discriminate.
  - destruct (holds_string "url" items); [|now right; left].
    left. eexists. split; [reflexivity|]. right. eexists.
    repeat split. discriminate.
  - destruct (lookup "url" fields) as [u|] eqn:Eu; [|now right; left].
    destruct (extract u) as [[|c id]|] eqn:Ex.
    + right. right. left. eauto.
    + right. right. right. exists fields, u, (String c id).
      repeat split; auto. discriminate.
    + right. right. left. eauto.
Qed.
End Route.

Lemma response_payload
    (fetch : string -> list call * (string * bool * string))
    (scrape : string -> list call * metadata) (utcnow : string)
    (youtube_url include_metadata : json) (video_id : string)
    (transcript error : string) (success : bool) :
  snd (fetch video_id) = (transcript, success, error) ->
  let d := payload (transcript_response fetch scrape utcnow youtube_url
                      include_metadata video_id) in
  lookup "success" d = Some (JBool success)
  /\ lookup "video_id" d = Some (JStr video_id)
  /\ lookup "transcript" d = Some (JStr transcript)
  /\ lookup "transcript_length" d = Some (json_nat (String.length transcript))
  /\ lookup "error" d = (if success then None else Some (JStr error))
  /\ lookup "url" d
     = Some (if truthy include_metadata
             then JStr (url (snd (scrape video_id)))
             else youtube_url)
  /\ lookup "title" d
     = (if truthy include_metadata
        then Some (JStr (title (snd (scrape video_id)))) else None)
  /\ lookup "description" d
     = (if truthy include_metadata
        then Some (JStr (description (snd (scrape video_id)))) else None)
  /\ lookup "duration" d
     = (if truthy include_metadata
        then Some (JStr (duration (snd (scrape video_id)))) else None).
Proof.
  intros H. unfold transcript_response. rewrite H.
  generalize (snd (scrape video_id)) as m. intros m.
  destruct success, (truthy include_metadata); cbn; repeat split.
Qed.

Lemma transcript_metadata_url (REQUEST_DELAY : Q)
    (requests_get : string -> outcome soup) (video_id : string) :
  url (Transcript.get_video_metadata REQUEST_DELAY requests_get video_id)
  = watch_url video_id
  /\ url (App.get_video_metadata REQUEST_DELAY requests_get video_id)
     = watch_url video_id.
Proof.
  unfold Transcript.get_video_metadata, App.get_video_metadata.
  destruct (time_sleep REQUEST_DELAY); [|now split].
  now destruct (requests_get (watch_url video_id)).
Qed.

Lemma clean_transcript_tidy (transcript_text : string) :
  tidy (clean_transcript transcript_text) = true.
Proof.
  unfold clean_transcript, re_sub.
  rewrite (proj2 (re_sub_spaces_from _)).
  apply strip_tidy, collapse_spaces_spaced.
Qed.

(** What the payload of an answer holds, by status code, whenever the
    file's [fetch_transcript] keeps to its result shape. *)
Lemma route_contract (max : Z) (missing_message invalid_message : string)
    (extract : json -> option string)
    (fetch : string -> list call * (string * bool * string))
    (scrape : string -> list call * metadata)
    (type_error : json -> string) (st : list Q) (now : Q) (utcnow : string)
    (get_json : outcome json) :
  (forall video_id, well_formed_result (snd (fetch video_id))) ->
  keeps_contract
    (snd (transcript_route max missing_message invalid_message extract
            fetch scrape type_error st now utcnow get_json)).
Proof.
  intros Hfetch. unfold keeps_contract.
  destruct (route_cases max missing_message invalid_message extract fetch
              scrape type_error st now utcnow get_json)
    as [[_ ->] | [_ [(e & -> & _) | [-> | [[-> _] | H]]]]];
    try (right; right; cbn; repeat split; eauto; fail).
  destruct H as (fields & u & id & _ & _ & _ & _ & ->).
  specialize (Hfetch id).
  destruct (snd (fetch id)) as [[t ok] e] eqn:E.
  pose proof (response_code fetch scrape utcnow u
                (match lookup "include_metadata" fields with
                 | Some v => v
                 | None => JBool true
                 end) id) as [Hcode _].
  pose proof (response_payload fetch scrape utcnow u
                (match lookup "include_metadata" fields with
                 | Some v => v
                 | None => JBool true
                 end) id t e ok E)
    as (Hs & _ & Ht & Hl & He & _).
  cbv zeta in *. rewrite E in Hcode. cbn [fst snd] in Hcode.
  destruct ok.
  - left. apply well_formed_success in Hfetch as [_ (raw & _ & ->)].
    repeat split; auto. eexists. repeat split; eauto.
    apply clean_transcript_tidy.
  - right. left. apply well_formed_failure in Hfetch as (-> & Hne & Hlen).
    repeat split; auto. eauto.
Qed.

(** Whatever the request and whatever the provider and the watch page do,
    [/api/transcript] answers with one of 200, 404, 400, 429 and 500, in
    both files.  A 200 carries [success] true, no [error], and a
    transcript without whitespace other than single inner spaces, whose
    length is [transcript_length]; a 404 carries [success] false, an empty
    transcript and a non-empty [error] of at most 125 characters; the
    others carry [success] false and an [error], and are given before any
    call to the provider or to the watch page. *)
Theorem transcript_route_contract (REQUEST_DELAY : Q)
    (MAX_REQUESTS_PER_MINUTE : Z) (api : transcript_api)
    (requests_get : string -> outcome soup) (type_error : json -> string)
    (st : list Q) (now : Q) (utcnow : string) (get_json : outcome json) :
  keeps_contract
    (snd (Transcript.get_transcript REQUEST_DELAY MAX_REQUESTS_PER_MINUTE api
            requests_get type_error st now utcnow get_json))
  /\ keeps_contract
       (snd (App.get_transcript REQUEST_DELAY api requests_get
               MAX_REQUESTS_PER_MINUTE type_error st now utcnow get_json)).
Proof.
  split; apply route_contract; intros video_id;
    [rewrite (proj1 (fetch_transcript_log_result _ _ _));
     apply transcript_fetch_well_formed
    | rewrite (proj2 (fetch_transcript_log_result _ _ _));
      apply app_fetch_well_formed].
Qed.

(** ** The requests a request sends out *)

Lemma fetches_log (video_id : string)
    (tracks : list (outcome (list string))) :
  forall position,
    Forall (sent_for video_id) (fetches video_id position tracks)
    /\ forallb to_provider (fetches video_id position tracks) = true
    /\ filter entry_point (fetches video_id position tracks) = [].
Proof.
  induction tracks as [|[items|e] tracks IH]; intros position;
    cbn [fetches]; [repeat split; constructor | |].
  - repeat split. repeat constructor.
  - destruct (IH (S position)) as (F & P & E).
    cbn [forallb to_provider filter entry_point andb].
    repeat split; auto. now constructor.
Qed.

Lemma fetches_length (video_id : string)
    (tracks : list (outcome (list string))) :
  forall position,
    List.length (fetches video_id position tracks) <= List.length tracks.
Proof.
  induction tracks as [|[items|e] tracks IH]; intros position;
    cbn [fetches List.length]; [lia | lia |].
  specialize (IH (S position)). lia.
Qed.

(** What [fetch_transcript] sends out, in both files: calls of the
    provider only, all for the id it was given, at most three of them to
    the entry points; nothing when the pause raises, and the default call
    first otherwise. *)
Lemma fetch_transcript_log_sent (REQUEST_DELAY : Q) (api : transcript_api)
    (video_id : string) :
  forall sent,
    sent = fst (Transcript.fetch_transcript_log REQUEST_DELAY api video_id)
    \/ sent = fst (App.fetch_transcript_log REQUEST_DELAY api video_id) ->
    provider_log video_id sent
    /\ ((REQUEST_DELAY < 0)%Q -> sent = [])
    /\ ((0 <= REQUEST_DELAY)%Q ->
        exists later, sent = GetTranscript video_id None :: later).
Proof.
  intros sent Hsent. unfold provider_log.
  assert (Hlist : forall languages tracks,
            let l := ([GetTranscript video_id None;
                       GetTranscript video_id languages;
                       ListTranscripts video_id]
                      ++ fetches video_id 0 tracks)%list in
            Forall (sent_for video_id) l
            /\ forallb to_provider l = true
            /\ List.length (filter entry_point l) <= 3).
  { intros languages tracks. cbv zeta.
    destruct (fetches_log video_id tracks 0) as (F & P & E).
    cbn [app forallb to_provider filter entry_point andb List.length].
    rewrite E. repeat split; auto. repeat constructor. exact F. }
  destruct (time_sleep_cases REQUEST_DELAY) as [[Hs Hd] | [Hs Hd]].
  - assert (Hfirst : exists later, sent = GetTranscript video_id None :: later
                     /\ (Forall (sent_for video_id) sent
                         /\ forallb to_provider sent = true
                         /\ List.length (filter entry_point sent) <= 3)).
    { destruct Hsent as [-> | ->];
        unfold Transcript.fetch_transcript_log, App.fetch_transcript_log;
        rewrite Hs;
        (destruct (get_transcript api video_id None);
         [eexists; split; [reflexivity|]; cbn; repeat split;
          repeat constructor|]);
        (destruct (get_transcript api video_id (Some _));
         [eexists; split; [reflexivity|]; cbn; repeat split;
          repeat constructor; lia|]);
        (destruct (list_transcripts api video_id) as [tracks|];
         [eexists; split; [reflexivity|]; apply Hlist
         | eexists; split; [reflexivity|]; cbn; repeat split;
           repeat constructor]). }
    destruct Hfirst as (later & E & H). split; [exact H|].
    split; [intros Hneg; exfalso; revert Hd Hneg; apply Qle_not_lt | eauto].
  - assert (E : sent = []).
    { destruct Hsent as [-> | ->];
        unfold Transcript.fetch_transcript_log, App.fetch_transcript_log;
        now rewrite Hs. }
    subst sent. repeat split; auto; cbn; try lia.
    intros Hpos. exfalso. revert Hpos Hd. apply Qle_not_lt.
Qed.

(** What [get_video_metadata] sends out, in both files: the one fetch of
    the watch page of the id, unless the pause raises. *)
Lemma get_video_metadata_log_sent (REQUEST_DELAY : Q)
    (requests_get : string -> outcome soup) (video_id : string) :
  forall sent,
    sent = fst (Transcript.get_video_metadata_log REQUEST_DELAY requests_get
                  video_id)
    \/ sent = fst (App.get_video_metadata_log REQUEST_DELAY requests_get
                     video_id) ->
    ((0 <= REQUEST_DELAY)%Q -> sent = [RequestsGet (watch_url video_id)])
    /\ ((REQUEST_DELAY < 0)%Q -> sent = []).
Proof.
  intros sent Hsent.
  assert (E : sent = match time_sleep REQUEST_DELAY with
                     | Returns _ => [RequestsGet (watch_url video_id)]
                     | Raises _ => []
                     end).
  { destruct Hsent as [-> | ->];
      unfold Transcript.get_video_metadata_log, App.get_video_metadata_log;
      now destruct (time_sleep REQUEST_DELAY). }
  subst sent.
  destruct (time_sleep_cases REQUEST_DELAY) as [[-> Hd] | [-> Hd]];
    split; intros H; try reflexivity; exfalso.
  - exact (Qle_not_lt _ _ Hd H).
  - exact (Qle_not_lt _ _ H Hd).
Qed.

(** With [include_metadata] left out or true, [response_data.update]
    overwrites the [url] the client sent with the watch-page URL of the
    extracted id, on a 200 and on a 404 alike, and a [title] is added;
    with a [REQUEST_DELAY] that is not negative the watch page of the id
    is then fetched, once and after every call of the provider, and with
    a negative one nothing is sent at all.  With [include_metadata] false
    the client's [url] stays, no [title] is added and the watch page is
    not fetched. *)
Theorem metadata_replaces_request_url (REQUEST_DELAY : Q)
    (MAX_REQUESTS_PER_MINUTE : Z) (api : transcript_api)
    (requests_get : string -> outcome soup) (type_error : json -> string)
    (st : list Q) (now : Q) (utcnow : string)
    (fields : list (string * json)) (youtube_url video_id : string) :
  fst (rate_limit_check MAX_REQUESTS_PER_MINUTE now st) = true ->
  lookup "url" fields = Some (JStr youtube_url) ->
  App.extract_video_id youtube_url = Some video_id ->
  let include_metadata :=
    match lookup "include_metadata" fields with
    | Some v => truthy v
    | None => true
    end in
  let in_transcript :=
    snd (Transcript.get_transcript REQUEST_DELAY MAX_REQUESTS_PER_MINUTE api
           requests_get type_error st now utcnow (Returns (JObj fields))) in
  let in_app :=
    snd (App.get_transcript REQUEST_DELAY api requests_get
           MAX_REQUESTS_PER_MINUTE type_error st now utcnow
           (Returns (JObj fields))) in
  forall r, r = in_transcript \/ r = in_app ->
    (code r = 200%Z \/ code r = 404%Z)
    /\ lookup "video_id" (payload r) = Some (JStr video_id)
    /\ (if include_metadata
        then lookup "url" (payload r)
             = Some (JStr ("https://www.youtube.com/watch?v=" ++ video_id))
             /\ (exists t, lookup "title" (payload r) = Some (JStr t))
             /\ ((0 <= REQUEST_DELAY)%Q ->
                 exists provider,
                   calls_made r
                   = (provider ++ [RequestsGet (watch_url video_id)])%list
                   /\ provider <> []
                   /\ forallb to_provider provider = true)
             /\ ((REQUEST_DELAY < 0)%Q -> calls_made r = [])
        else lookup "url" (payload r) = Some (JStr youtube_url)
             /\ lookup "title" (payload r) = None
             /\ forallb to_provider (calls_made r) = true).
Proof.
  intros Hadm Hurl Hid. cbv zeta.
  apply app_extract_video_id_iff in Hid as [Hcand Hlen].
  assert (Hne : exists c id', video_id = String c id').
  { destruct video_id; [discriminate | eauto]. }
  destruct Hne as (c & id' & ->).
  pose proof (transcript_metadata_url REQUEST_DELAY requests_get (String c id'))
    as [Hut Hua].
  pose proof (get_video_metadata_log_result REQUEST_DELAY requests_get
                (String c id')) as [Hrt Hra].
  rewrite <- Hrt in Hut. rewrite <- Hra in Hua.
  assert (Hshape :
    forall fetch scrape,
      url (snd (scrape (String c id'))) = watch_url (String c id') ->
      (provider_log (String c id') (fst (fetch (String c id')))
       /\ ((REQUEST_DELAY < 0)%Q -> fst (fetch (String c id')) = [])
       /\ ((0 <= REQUEST_DELAY)%Q ->
           exists later,
             fst (fetch (String c id'))
             = GetTranscript (String c id') None :: later)) ->
      (((0 <= REQUEST_DELAY)%Q ->
        fst (scrape (String c id'))
        = [RequestsGet (watch_url (String c id'))])
       /\ ((REQUEST_DELAY < 0)%Q -> fst (scrape (String c id')) = [])) ->
      forall r,
        r = transcript_response fetch scrape utcnow (JStr youtube_url)
              (match lookup "include_metadata" fields with
               | Some v => v
               | None => JBool true
               end) (String c id') ->
        (code r = 200%Z \/ code r = 404%Z)
        /\ lookup "video_id" (payload r) = Some (JStr (String c id'))
        /\ (if match lookup "include_metadata" fields with
               | Some v => truthy v
               | None => true
               end
            then lookup "url" (payload r)
                 = Some (JStr ("https://www.youtube.com/watch?v="
                               ++ String c id'))
                 /\ (exists t, lookup "title" (payload r) = Some (JStr t))
                 /\ ((0 <= REQUEST_DELAY)%Q ->
                     exists provider,
                       calls_made r
                       = (provider
                          ++ [RequestsGet (watch_url (String c id'))])%list
                       /\ provider <> []
                       /\ forallb to_provider provider = true)
                 /\ ((REQUEST_DELAY < 0)%Q -> calls_made r = [])
            else lookup "url" (payload r) = Some (JStr youtube_url)
                 /\ lookup "title" (payload r) = None
                 /\ forallb to_provider (calls_made r) = true)).
  { intros fetch scrape Hu ((_ & Hprov & _) & Hnone & Hsome) [Hpage Hnopage]
      r ->.
    destruct (snd (fetch (String c id'))) as [[t ok] e] eqn:E.
    pose proof (response_code fetch scrape utcnow (JStr youtube_url)
                  (match lookup "include_metadata" fields with
                   | Some v => v
                   | None => JBool true
                   end) (String c id')) as [Hcode Hcalls].
    pose proof (response_payload fetch scrape utcnow (JStr youtube_url)
                  (match lookup "include_metadata" fields with
                   | Some v => v
                   | None => JBool true
                   end) (String c id') t e ok E)
      as (_ & Hv & _ & _ & _ & Hu' & Ht & _).
    cbv zeta in *. rewrite E in Hcode. cbn [fst snd] in Hcode.
    rewrite Hu in Hu'. unfold watch_url in Hu'.
    split; [destruct ok; auto|]. split; [exact Hv|].
    assert (Hwith :
      calls_made
        (transcript_response fetch scrape utcnow (JStr youtube_url)
           (match lookup "include_metadata" fields with
            | Some v => v
            | None => JBool true
            end) (String c id'))
      = (fst (fetch (String c id')) ++ fst (scrape (String c id')))%list ->
      ((0 <= REQUEST_DELAY)%Q ->
       exists provider,
         calls_made
           (transcript_response fetch scrape utcnow (JStr youtube_url)
              (match lookup "include_metadata" fields with
               | Some v => v
               | None => JBool true
               end) (String c id'))
         = (provider ++ [RequestsGet (watch_url (String c id'))])%list
         /\ provider <> []
         /\ forallb to_provider provider = true)
      /\ ((REQUEST_DELAY < 0)%Q ->
          calls_made
            (transcript_response fetch scrape utcnow (JStr youtube_url)
               (match lookup "include_metadata" fields with
                | Some v => v
                | None => JBool true
                end) (String c id'))
          = [])).
    { intros ->. split; intros Hd.
      - exists (fst (fetch (String c id'))).
        rewrite (Hpage Hd). repeat split; auto.
        destruct (Hsome Hd) as [later ->]. discriminate.
      - now rewrite (Hnone Hd), (Hnopage Hd). }
    destruct (lookup "include_metadata" fields) as [v|];
      [destruct (truthy v) | cbn [truthy] in *].
    - destruct (Hwith Hcalls). repeat split; eauto.
    - rewrite Hcalls, app_nil_r. repeat split; eauto.
    - destruct (Hwith Hcalls). repeat split; eauto. }
  intros r [-> | ->].
  - apply (Hshape (Transcript.fetch_transcript_log REQUEST_DELAY api)
             (Transcript.get_video_metadata_log REQUEST_DELAY requests_get)
             Hut).
    + apply (fetch_transcript_log_sent REQUEST_DELAY api). now left.
    + apply (get_video_metadata_log_sent REQUEST_DELAY requests_get). now left.
    + unfold Transcript.get_transcript, transcript_route.
      destruct (rate_limit_check MAX_REQUESTS_PER_MINUTE now st) as [adm kept].
      cbn [fst] in Hadm. subst adm. cbn [snd negb].
      rewrite (lookup_some_truthy _ _ _ Hurl), Hurl. cbn [negb].
      unfold Transcript.extract_from, Transcript.extract_video_id.
      now rewrite Hcand.
  - apply (Hshape (App.fetch_transcript_log REQUEST_DELAY api)
             (App.get_video_metadata_log REQUEST_DELAY requests_get) Hua).
    + apply (fetch_transcript_log_sent REQUEST_DELAY api). now right.
    + apply (get_video_metadata_log_sent REQUEST_DELAY requests_get). now right.
    + unfold App.get_transcript, transcript_route.
      destruct (rate_limit_check MAX_REQUESTS_PER_MINUTE now st) as [adm kept].
      cbn [fst] in Hadm. subst adm. cbn [snd negb].
      rewrite (lookup_some_truthy _ _ _ Hurl), Hurl. cbn [negb].
      unfold App.extract_from, App.extract_video_id.
      rewrite Hcand, Hlen. now cbn.
Qed.

Lemma metadata_replaces_request_url_witness :
  lookup "url"
    (payload
       (snd (App.get_transcript 1 no_captions (fun _ => Raises "timed out")
               30 (fun _ => "") [] 0 "2024-01-01T00:00:00"
               (Returns (JObj [("url", JStr "https://youtu.be/dQw4w9WgXcQ")])))))
  = Some (JStr "https://www.youtube.com/watch?v=dQw4w9WgXcQ")
  /\ calls_made
       (snd (App.get_transcript (-1) no_captions (fun _ => Raises "timed out")
               30 (fun _ => "") [] 0 "2024-01-01T00:00:00"
               (Returns (JObj [("url", JStr "https://youtu.be/dQw4w9WgXcQ")]))))
     = [].
Proof.
  split.
  - refine (proj1 (proj2 (proj2
              (metadata_replaces_request_url 1 30 no_captions
                 (fun _ => Raises "timed out") (fun _ => "") [] 0
                 "2024-01-01T00:00:00"
                 [("url", JStr "https://youtu.be/dQw4w9WgXcQ")]
                 "https://youtu.be/dQw4w9WgXcQ" "dQw4w9WgXcQ" _ _ _ _
                 (or_intror eq_refl)))));
      reflexivity.
  - refine (proj2 (proj2 (proj2 (proj2 (proj2
              (metadata_replaces_request_url (-1) 30 no_captions
                 (fun _ => Raises "timed out") (fun _ => "") [] 0
                 "2024-01-01T00:00:00"
                 [("url", JStr "https://youtu.be/dQw4w9WgXcQ")]
                 "https://youtu.be/dQw4w9WgXcQ" "dQw4w9WgXcQ" _ _ _ _
                 (or_intror eq_refl)))))) _);
      reflexivity.
Defined.



(** ** The limiter behind the routes *)

Lemma batch_list (REQUEST_DELAY : Q) (MAX_REQUESTS_PER_MINUTE : Z)
    (api : transcript_api) (type_error : json -> string) (st : list Q)
    (now : Q) (utcnow : string) (get_json : outcome json) :
  fst (Transcript.get_batch_transcripts REQUEST_DELAY MAX_REQUESTS_PER_MINUTE
         api type_error st now utcnow get_json)
  = snd (rate_limit_check MAX_REQUESTS_PER_MINUTE now st).
Proof.
  unfold Transcript.get_batch_transcripts.
  now destruct (rate_limit_check MAX_REQUESTS_PER_MINUTE now st).
Qed.

Lemma transcript_served_reachable (REQUEST_DELAY : Q)
    (MAX_REQUESTS_PER_MINUTE : Z) (api : transcript_api)
    (requests_get : string -> outcome soup) (type_error : json -> string)
    (st : list Q) :
  transcript_served REQUEST_DELAY MAX_REQUESTS_PER_MINUTE api requests_get
    type_error st ->
  reachable MAX_REQUESTS_PER_MINUTE st.
Proof.
  induction 1 as [| st now utcnow body _ IH | st now utcnow body _ IH].
  - constructor.
  - unfold Transcript.get_transcript. rewrite route_list. now constructor.
  - rewrite batch_list. now constructor.
Qed.

Lemma app_served_reachable (REQUEST_DELAY : Q)
    (MAX_REQUESTS_PER_MINUTE : Z) (api : transcript_api)
    (requests_get : string -> outcome soup) (type_error : json -> string)
    (st : list Q) :
  app_served REQUEST_DELAY MAX_REQUESTS_PER_MINUTE api requests_get
    type_error st ->
  reachable MAX_REQUESTS_PER_MINUTE st.
Proof.
  induction 1 as [| st now utcnow body _ IH].
  - constructor.
  - unfold App.get_transcript. rewrite route_list. now constructor.
Qed.

(** However the routes are called, what [/api/status] reports as
    [current_load] never exceeds the configured maximum, when that is not
    negative. *)
Theorem status_load_within_limit (REQUEST_DELAY : Q)
    (MAX_REQUESTS_PER_MINUTE : Z) (api : transcript_api)
    (requests_get : string -> outcome soup) (type_error : json -> string)
    (FLASK_ENV utcnow : string) (st : list Q) :
  (0 <= MAX_REQUESTS_PER_MINUTE)%Z ->
  (transcript_served REQUEST_DELAY MAX_REQUESTS_PER_MINUTE api requests_get
     type_error st ->
   exists load,
     lookup "current_load"
       (Transcript.get_status REQUEST_DELAY MAX_REQUESTS_PER_MINUTE st utcnow)
     = Some (json_nat load)
     /\ (Z.of_nat load <= MAX_REQUESTS_PER_MINUTE)%Z)
  /\ (app_served REQUEST_DELAY MAX_REQUESTS_PER_MINUTE api requests_get
        type_error st ->
      exists load,
        lookup "current_load"
          (App.get_status REQUEST_DELAY MAX_REQUESTS_PER_MINUTE FLASK_ENV st
             utcnow)
        = Some (json_nat load)
        /\ (Z.of_nat load <= MAX_REQUESTS_PER_MINUTE)%Z).
Proof.
  intros Hmax. split; intros H;
    [apply transcript_served_reachable in H
    | apply app_served_reachable in H];
    apply reachable_length in H; exists (List.length st);
    (split; [reflexivity | lia]).
Qed.

Lemma status_load_within_limit_witness :
  exists load,
    lookup "current_load"
      (Transcript.get_status 1 1
         (fst (Transcript.get_transcript 1 1 no_captions
                 (fun _ => Raises "timed out") (fun _ => "") [] 0
                 "2024-01-01T00:00:00" (Returns JNull)))
         "2024-01-01T00:00:01")
    = Some (json_nat load)
    /\ (Z.of_nat load <= 1)%Z.
Proof.
  refine (proj1 (status_load_within_limit 1 1 no_captions
                   (fun _ => Raises "timed out") (fun _ => "") ""
                   "2024-01-01T00:00:01" _ _) _).
  - discriminate.
  - apply transcript_after_single, transcript_at_import.
Defined.

(** A 429 from [/api/transcript] is given exactly when the limiter
    rejects; it then leaves the list as it was, calls nothing, and
    reports [current_requests] equal to [max_requests_per_minute]. *)
Theorem rate_limited_reply_reports_full_window (REQUEST_DELAY : Q)
    (MAX_REQUESTS_PER_MINUTE : Z) (api : transcript_api)
    (requests_get : string -> outcome soup) (type_error : json -> string)
    (st : list Q) (now : Q) (utcnow : string) (get_json : outcome json) :
  (0 <= MAX_REQUESTS_PER_MINUTE)%Z ->
  reachable MAX_REQUESTS_PER_MINUTE st ->
  forall served,
    served = Transcript.get_transcript REQUEST_DELAY MAX_REQUESTS_PER_MINUTE
               api requests_get type_error st now utcnow get_json
    \/ served = App.get_transcript REQUEST_DELAY api requests_get
                  MAX_REQUESTS_PER_MINUTE type_error st now utcnow get_json ->
    (code (snd served) = 429%Z
     <-> fst (rate_limit_check MAX_REQUESTS_PER_MINUTE now st) = false)
    /\ (code (snd served) = 429%Z ->
        fst served = st
        /\ calls_made (snd served) = []
        /\ lookup "rate_limit" (payload (snd served))
           = Some (JObj [("max_requests_per_minute",
                          json_int MAX_REQUESTS_PER_MINUTE);
                         ("current_requests",
                          json_int MAX_REQUESTS_PER_MINUTE)])).
Proof.
  intros Hmax Hst served Hserved.
  assert (Hroute : exists m i extract fetch scrape,
            served = transcript_route MAX_REQUESTS_PER_MINUTE m i extract
                       fetch scrape type_error st now utcnow get_json).
  { destruct Hserved as [-> | ->]; repeat eexists. }
  destruct Hroute as (m & i & extract & fetch & scrape & ->). clear Hserved.
  pose proof (route_list MAX_REQUESTS_PER_MINUTE m i extract fetch scrape
                type_error st now utcnow get_json) as Hlist.
  assert (Hcode :
    code (snd (transcript_route MAX_REQUESTS_PER_MINUTE m i extract fetch
                 scrape type_error st now utcnow get_json)) = 429%Z
    <-> fst (rate_limit_check MAX_REQUESTS_PER_MINUTE now st) = false).
  { destruct (route_cases MAX_REQUESTS_PER_MINUTE m i extract fetch scrape
                type_error st now utcnow get_json)
      as [[Hrej ->] | [Hadm [(e & -> & _) | [-> | [[-> _] | H]]]]];
      try (split; [discriminate | congruence]); [now split|].
    destruct H as (fields & u & id & _ & _ & _ & _ & ->).
    destruct (response_code fetch scrape utcnow u
                (match lookup "include_metadata" fields with
                 | Some v => v
                 | None => JBool true
                 end) id) as [-> _].
    destruct (snd (fst (snd (fetch id)))); split;
      (discriminate || congruence). }
  split; [exact Hcode|]. intros H429. apply Hcode in H429.
  destruct (rejected_call_purges_nothing MAX_REQUESTS_PER_MINUTE now st Hst
              H429) as [Hsame Hleft].
  destruct (route_cases MAX_REQUESTS_PER_MINUTE m i extract fetch scrape
              type_error st now utcnow get_json)
    as [[_ Hr] | [Hadm _]]; [|congruence].
  rewrite Hlist, Hr, Hleft. repeat split. cbn [payload lookup String.eqb].
  apply rate_limit_check_rejects in H429. rewrite Hsame in H429.
  pose proof (reachable_length MAX_REQUESTS_PER_MINUTE st Hst).
  unfold json_nat, json_int.
  replace (Z.of_nat (List.length st)) with MAX_REQUESTS_PER_MINUTE by lia.
  reflexivity.
Qed.

Lemma rate_limited_reply_reports_full_window_witness :
  code (snd (App.get_transcript 1 no_captions (fun _ => Raises "timed out")
               1 (fun _ => "") [0%Q] 1 "2024-01-01T00:00:01"
               (Returns JNull)))
  = 429%Z.
Proof.
  refine (proj2 (proj1 (rate_limited_reply_reports_full_window 1 1 no_captions
                          (fun _ => Raises "timed out") (fun _ => "") [0%Q] 1
                          "2024-01-01T00:00:01" (Returns JNull) _
                          (reachable_call 1 0%Q _ (reachable_start 1))
                          _ (or_intror eq_refl))) _).
  - discriminate.
  - reflexivity.
Defined.

(** ** The batch loop *)

Lemma time_sleep_sign (secs : Q) :
  ((0 <= secs)%Q -> time_sleep (secs * 2) = Returns tt)
  /\ ((secs < 0)%Q ->
      time_sleep (secs * 2) = Raises "sleep length must be non-negative").
Proof.
  destruct (time_sleep_cases (secs * 2)) as [[-> H] | [-> H]];
    split; intros; try reflexivity; exfalso; lra.
Qed.


Lemma process_urls_stops (REQUEST_DELAY : Q) (api : transcript_api)
    (urls : list json) :
  (REQUEST_DELAY < 0)%Q ->
  forall results done,
    fst (Transcript.process_urls REQUEST_DELAY api urls results done)
    = if existsb usable urls
      then Raises "sleep length must be non-negative"
      else Returns (results
                    ++ map (fun u => JObj [("url", u); ("success", JBool false);
                                           ("error", JStr "Invalid YouTube URL")])
                         urls)%list.
Proof.
  intros Hd. pose proof (proj2 (time_sleep_sign REQUEST_DELAY) Hd) as Hs.
  induction urls as [|u urls IH]; intros results done.
  - cbn. now rewrite app_nil_r.
  - cbn [Transcript.process_urls existsb map]. unfold usable at 1.
    destruct (Transcript.extract_from u) as [[|c id]|] eqn:Ex; cbn [orb].
    + rewrite IH. destruct (existsb usable urls); [reflexivity|].
      now rewrite <- app_assoc.
    + destruct (Transcript.fetch_transcript REQUEST_DELAY api (String c id))
        as [[t ok] e].
      now rewrite Hs.
    + rewrite IH. destruct (existsb usable urls); [reflexivity|].
      now rewrite <- app_assoc.
Qed.



(** With a negative [REQUEST_DELAY] the two routes part ways: the pause
    inside [fetch_transcript] is caught there, but the pause of the batch
    loop is not, so an admitted batch of one to five URLs is answered 500
    as soon as one URL yields an id, and 200 only when none does. *)
Theorem batch_fails_on_negative_delay (REQUEST_DELAY : Q)
    (MAX_REQUESTS_PER_MINUTE : Z) (api : transcript_api)
    (type_error : json -> string) (st : list Q) (now : Q) (utcnow : string)
    (fields : list (string * json)) (urls : list json) :
  fst (rate_limit_check MAX_REQUESTS_PER_MINUTE now st) = true ->
  (REQUEST_DELAY < 0)%Q ->
  lookup "urls" fields = Some (JArr urls) ->
  1 <= List.length urls <= 5 ->
  let reply :=
    snd (Transcript.get_batch_transcripts REQUEST_DELAY
           MAX_REQUESTS_PER_MINUTE api type_error st now utcnow
           (Returns (JObj fields))) in
  if existsb usable urls
  then Transcript.status reply = 500%Z
       /\ Transcript.body reply
          = JObj [("success", JBool false);
                  ("error",
                   JStr "Internal server error: sleep length must be non-negative")]
  else Transcript.status reply = 200%Z.
Proof.
  intros Hadm Hd Hurls Hlen. cbv zeta.
  unfold Transcript.get_batch_transcripts.
  destruct (rate_limit_check MAX_REQUESTS_PER_MINUTE now st) as [adm kept].
  cbn [fst] in Hadm. subst adm. cbn [snd negb].
  rewrite (lookup_some_truthy _ _ _ Hurls), Hurls. cbn [negb].
  unfold Transcript.validate_and_run.
  destruct (Nat.eqb_spec (List.length urls) 0) as [E|_]; [lia|].
  destruct (Nat.ltb_spec 5 (List.length urls)) as [E|_]; [lia|].
  pose proof (process_urls_stops REQUEST_DELAY api urls Hd [] []) as H.
  destruct (Transcript.process_urls REQUEST_DELAY api urls [] [])
    as [[results | e] done]; cbn [fst] in H;
    destruct (existsb usable urls); try discriminate.
  - reflexivity.
  - injection H as ->. now split.
Qed.

Lemma batch_fails_on_negative_delay_witness :
  Transcript.status
    (snd (Transcript.get_batch_transcripts (-1) 30 no_captions (fun _ => "")
            [] 0 "2024-01-01T00:00:00"
            (Returns (JObj [("urls",
                             JArr [JStr "https://youtu.be/dQw4w9WgXcQ"])]))))
  = 500%Z.
Proof.
  refine (proj1 (batch_fails_on_negative_delay (-1) 30 no_captions
                   (fun _ => "") [] 0 "2024-01-01T00:00:00"
                   [("urls", JArr [JStr "https://youtu.be/dQw4w9WgXcQ"])]
                   [JStr "https://youtu.be/dQw4w9WgXcQ"] _ _ _ _));
    [reflexivity | reflexivity | reflexivity | cbn; lia].
Defined.

(** ** The JSON-LD loop *)

Lemma scan_duration_passes_over (before rest : list (outcome json)) :
  forallb passed_over before = true ->
  scan_duration (before ++ rest) = scan_duration rest.
Proof.
  induction before as [|script before IH]; [reflexivity|].
  cbn [forallb app]. intros H. apply andb_prop in H as [Hp Hb].
  specialize (IH Hb). cbn [scan_duration].
  destruct script as [data|e]; [|exact IH]. unfold passed_over in Hp.
  destruct data as [| b | q | s | [|first items] | fields];
    try exact IH.
  - destruct first as [| b | q | s | inner | fields]; try exact IH.
    destruct (is_video_object fields); [discriminate | exact IH].
  - destruct (is_video_object fields); [discriminate | exact IH].
Qed.

(** The loop over the JSON-LD scripts ends at the first script whose root
    (or whose first element, for a list) is a [VideoObject] and whose
    block completes, whatever comes after it: the result is "Unknown" when
    the object has no duration, even if a later script has one, and what
    the duration is rendered as when it is a string that [int] accepts.
    Scripts that do not parse or describe something else are passed over;
    so is a [VideoObject] whose block raises, which happens exactly when
    its duration is a number, a true boolean, or a non-empty list or
    object, since [startswith] raises on it, or a string with a component
    that [int] turns down. *)
Theorem first_video_object_decides (before rest : list (outcome json))
    (fields : list (string * json)) (others : list json) :
  forallb passed_over before = true ->
  is_video_object fields = true ->
  (forall duration,
      duration_of_object fields = Returns duration ->
      scan_duration (before ++ Returns (JObj fields) :: rest) = duration
      /\ scan_duration (before ++ Returns (JArr (JObj fields :: others)) :: rest)
         = duration)
  /\ (lookup "duration" fields = None ->
      scan_duration (before ++ Returns (JObj fields) :: rest) = "Unknown")
  /\ (forall iso, lookup "duration" fields = Some (JStr iso) ->
        scan_duration (before ++ Returns (JObj fields) :: rest)
        = match parse_duration iso with
          | Returns duration => duration
          | Raises _ => scan_duration rest
          end)
  /\ (forall e, duration_of_object fields = Raises e ->
        scan_duration (before ++ Returns (JObj fields) :: rest)
        = scan_duration rest)
  /\ (forall e, duration_of_object fields = Raises e <->
        exists v, lookup "duration" fields = Some v
                  /\ truthy v = true
                  /\ match v with
                     | JStr iso => parse_duration iso = Raises e
                     | _ => e = "AttributeError"
                     end).
Proof.
  intros Hb Hv. rewrite !scan_duration_passes_over by assumption.
  cbn [scan_duration]. rewrite Hv. unfold duration_of_object.
  split; [|split; [|split; [|split]]].
  - intros d H. now rewrite H.
  - intros H. now rewrite H.
  - intros iso H. rewrite H. cbn [truthy]. unfold parse_duration.
    destruct iso; reflexivity.
  - intros e H. now rewrite H.
  - intros e. destruct (lookup "duration" fields) as [v|].
    + split.
      * intros H. exists v. split; [reflexivity|].
        destruct (truthy v); [|discriminate]. split; [reflexivity|].
        destruct v; congruence.
      * intros (v' & [= <-] & -> & H). destruct v; congruence.
    + cbn [truthy nonempty]. split; [discriminate|].
      intros (v & Hn & _). discriminate.
Qed.

Lemma first_video_object_decides_witness :
  scan_duration
    [Raises "Expecting value";
     Returns (JObj [("@type", JStr "BreadcrumbList")]);
     Returns (JObj [("@type", JStr "VideoObject")]);
     Returns (JObj [("@type", JStr "VideoObject"); ("duration", JStr "PT42S")])]
  = "Unknown"
  /\ scan_duration
       [Returns (video_object oversized_duration);
        Returns (video_object "PT42S")]
     = "42s".
Proof.
  split.
  - refine (proj1 (proj2
              (first_video_object_decides
                 [Raises "Expecting value";
                  Returns (JObj [("@type", JStr "BreadcrumbList")])]
                 [Returns (JObj [("@type", JStr "VideoObject");
                                 ("duration", JStr "PT42S")])]
                 [("@type", JStr "VideoObject")] [] _ _)) _);
      reflexivity.
  - pose proof (first_video_object_decides []
                  [Returns (video_object "PT42S")]
                  [("@type", JStr "VideoObject");
                   ("duration", JStr oversized_duration)] [] eq_refl eq_refl)
      as (_ & _ & H & _).
    specialize (H oversized_duration eq_refl). cbn [app] in H.
    destruct (written_duration_refused None None (Some long_number)
                (or_intror (or_intror long_number_refused))) as [e E].
    unfold video_object at 1. rewrite H. unfold oversized_duration.
    rewrite E. reflexivity.
Defined.

(** ** The fallback chain *)

Lemma first_fetched_skips (failed : list string)
    (rest : list (outcome (list string))) :
  first_fetched (map Raises failed ++ rest) = first_fetched rest.
Proof. induction failed as [|e failed IH]; [reflexivity | exact IH]. Qed.

(** The three methods of [fetch_transcript] are tried in order and the
    first that returns decides, in both files: the default request; else
    the request by language; else the first track of the listing that can
    be fetched, the tracks before it being skipped.  When the listing
    returns but no track can be fetched, [transcript.py] reports "No
    transcript text extracted" and [app.py] "No accessible transcripts
    found". *)
Theorem fetch_transcript_fallback_order (REQUEST_DELAY : Q)
    (api : transcript_api) (video_id : string) :
  (0 <= REQUEST_DELAY)%Q ->
  let in_transcript := Transcript.fetch_transcript REQUEST_DELAY api video_id in
  let in_app := App.fetch_transcript REQUEST_DELAY api video_id in
  let first_languages := get_transcript api video_id (Some ["en"; "en-US"; "en-GB"]) in
  let second_languages :=
    get_transcript api video_id (Some ["en"; "en-US"; "en-GB"; "auto"]) in
  (forall items,
      get_transcript api video_id None = Returns items ->
      in_transcript = finish_transcript (join " " items)
      /\ in_app = finish_transcript (join " " items))
  /\ (forall e1 items,
        get_transcript api video_id None = Raises e1 ->
        (first_languages = Returns items ->
         in_transcript = finish_transcript (join " " items))
        /\ (second_languages = Returns items ->
            in_app = finish_transcript (join " " items)))
  /\ (forall e1 e2 e2' failed items rest,
        get_transcript api video_id None = Raises e1 ->
        first_languages = Raises e2 ->
        second_languages = Raises e2' ->
        list_transcripts api video_id
        = Returns (map Raises failed ++ Returns items :: rest)%list ->
        nonempty (join " " items) = true ->
        in_transcript = (clean_transcript (join " " items), true, "")
        /\ in_app = (clean_transcript (join " " items), true, ""))
  /\ (forall e1 e2 e2' failed,
        get_transcript api video_id None = Raises e1 ->
        first_languages = Raises e2 ->
        second_languages = Raises e2' ->
        list_transcripts api video_id = Returns (map Raises failed) ->
        in_transcript = ("", false, "No transcript text extracted")
        /\ in_app = ("", false, "No accessible transcripts found")).
Proof.
  intros Hd. cbv zeta.
  unfold Transcript.fetch_transcript, App.fetch_transcript.
  destruct (time_sleep_cases REQUEST_DELAY) as [[-> _] | [_ Hneg]];
    [|exfalso; lra].
  split; [|split; [|split]].
  - intros items ->. now split.
  - intros e1 items ->. split; intros ->; reflexivity.
  - intros e1 e2 e2' failed items rest -> -> -> -> Hne.
    rewrite first_fetched_skips. cbn [first_fetched].
    unfold finish_transcript. rewrite Hne. now split.
  - intros e1 e2 e2' failed -> -> -> ->.
    pose proof (first_fetched_skips failed []) as H.
    rewrite app_nil_r in H. rewrite H. now split.
Qed.

Lemma fetch_transcript_fallback_order_witness :
  App.fetch_transcript 1
    {| get_transcript := fun _ _ => Raises "Subtitles are disabled";
       list_transcripts :=
         fun _ => Returns [Raises "blocked"; Returns ["Hello"; "world"]] |}
    "dQw4w9WgXcQ"
  = ("Hello world", true, "").
Proof.
  refine (proj2 (proj1 (proj2 (proj2
            (fetch_transcript_fallback_order 1
               {| get_transcript := fun _ _ => Raises "Subtitles are disabled";
                  list_transcripts :=
                    fun _ => Returns [Raises "blocked";
                                      Returns ["Hello"; "world"]] |}
               "dQw4w9WgXcQ" _)))
            "Subtitles are disabled" "Subtitles are disabled"
            "Subtitles are disabled" ["blocked"] ["Hello"; "world"] []
            _ _ _ _ _));
    (discriminate || reflexivity).
Defined.

(** The two files give the same text and the same success flag whenever
    the two language lists get the same answer from the provider; their
    reasons differ in one case only, a listing with no track that can be
    fetched. *)
Theorem files_agree_on_transcript (REQUEST_DELAY : Q) (api : transcript_api)
    (video_id : string) :
  get_transcript api video_id (Some ["en"; "en-US"; "en-GB"])
  = get_transcript api video_id (Some ["en"; "en-US"; "en-GB"; "auto"]) ->
  let in_transcript := Transcript.fetch_transcript REQUEST_DELAY api video_id in
  let in_app := App.fetch_transcript REQUEST_DELAY api video_id in
  fst in_transcript = fst in_app
  /\ (snd in_transcript = snd in_app
      \/ snd in_transcript = "No transcript text extracted"
         /\ snd in_app = "No accessible transcripts found").
Proof.
  intros H. cbv zeta.
  unfold Transcript.fetch_transcript, App.fetch_transcript. rewrite H.
  clear H.
  destruct (time_sleep REQUEST_DELAY); [|split; [reflexivity | now left]].
  destruct (get_transcript api video_id None);
    [split; [reflexivity | now left]|].
  destruct (get_transcript api video_id
              (Some ["en"; "en-US"; "en-GB"; "auto"]));
    [split; [reflexivity | now left]|].
  destruct (list_transcripts api video_id) as [tracks|];
    [|split; [reflexivity | now left]].
  unfold finish_transcript.
  destruct (first_fetched tracks); cbn [nonempty negb fst snd]; split; auto.
Qed.

Lemma files_agree_on_transcript_witness :
  fst (Transcript.fetch_transcript 1 music_only "dQw4w9WgXcQ")
  = fst (App.fetch_transcript 1 music_only "dQw4w9WgXcQ").
Proof.
  apply (files_agree_on_transcript 1 music_only "dQw4w9WgXcQ"). reflexivity.
Defined.

(** ** Cleaning twice *)

Lemma space_is_no_bracket (c : ascii) :
  isspace c = true ->
  Ascii.eqb c "]" = false /\ Ascii.eqb c "[" = false.
Proof.
  intros H. split.
  - destruct (Ascii.eqb c "]") eqn:E; [|reflexivity].
    apply Ascii.eqb_eq in E. subst c. vm_compute in H. discriminate H.
  - destruct (Ascii.eqb c "[") eqn:E; [|reflexivity].
    apply Ascii.eqb_eq in E. subst c. vm_compute in H. discriminate H.
Qed.

Lemma remove_bracketed_fixed (s : string) :
  bracket_free s = true -> remove_bracketed false s = s.
Proof.
  induction s as [|c s IH]; [reflexivity|]. cbn [bracket_free remove_bracketed].
  intros H. apply andb_prop in H as [Hc Hs]. apply negb_true_iff in Hc.
  now rewrite Hc, (IH Hs).
Qed.

Lemma remove_bracketed_one_line (s : string) (inside : bool) :
  one_line s = true -> one_line (remove_bracketed inside s) = true.
Proof.
  revert inside. induction s as [|c s IH]; intros inside; [reflexivity|].
  cbn [one_line remove_bracketed]. intros H.
  apply andb_prop in H as [Hc Hs].
  destruct inside; [now apply IH|].
  destruct (Ascii.eqb c "[" && closes s); [now apply IH|].
  cbn [one_line]. now rewrite Hc, IH.
Qed.

Lemma collapse_spaces_head_free (s : string) :
  head_not_space s = true -> collapse_spaces true s = collapse_spaces false s.
Proof.
  destruct s as [|c s]; [reflexivity|]. cbn [head_not_space collapse_spaces].
  intros H. apply negb_true_iff in H. now rewrite H.
Qed.

Lemma collapse_spaces_fixed (s : string) :
  spaced s = true -> collapse_spaces false s = s.
Proof.
  induction s as [|c s IH]; [reflexivity|]. cbn [spaced collapse_spaces].
  intros H. apply andb_prop in H as [Hc Hs]. specialize (IH Hs).
  destruct (isspace c); [|now rewrite IH].
  apply andb_prop in Hc as [Hc Hh]. apply Ascii.eqb_eq in Hc. subst c.
  now rewrite (collapse_spaces_head_free s Hh), IH.
Qed.

Lemma single_spaced_spaced (s : string) :
  single_spaced s = true -> spaced s = true.
Proof.
  induction s as [|c s IH]; [reflexivity|]. cbn [single_spaced spaced].
  intros H. apply andb_prop in H as [Hc Hs]. rewrite (IH Hs), andb_true_r.
  destruct (isspace c); [|reflexivity].
  apply andb_prop in Hc as [Hc _]. exact Hc.
Qed.

Lemma rstrip_fixed (s : string) : single_spaced s = true -> rstrip s = s.
Proof.
  induction s as [|c s IH]; [reflexivity|]. cbn [single_spaced rstrip].
  intros H. apply andb_prop in H as [Hc Hs]. rewrite (IH Hs).
  destruct s as [|c' s]; [|reflexivity].
  destruct (isspace c); [|reflexivity].
  rewrite andb_false_r in Hc. discriminate Hc.
Qed.

Lemma strip_fixed (s : string) : tidy s = true -> strip s = s.
Proof.
  unfold tidy, strip. intros H. apply andb_prop in H as [Hh Hs].
  assert (lstrip s = s) as ->; [|now apply rstrip_fixed].
  destruct s as [|c s]; [reflexivity|]. cbn [head_not_space lstrip] in *.
  apply negb_true_iff in Hh. now rewrite Hh.
Qed.

Lemma closes_collapse_spaces (s : string) (in_run : bool) :
  one_line s = true -> closes (collapse_spaces in_run s) = closes s.
Proof.
  revert in_run. induction s as [|c s IH]; intros in_run; [reflexivity|].
  cbn [one_line collapse_spaces closes]. intros H.
  apply andb_prop in H as [Hc Hs]. apply negb_true_iff in Hc.
  destruct (isspace c) eqn:Ec.
  - destruct (space_is_no_bracket c Ec) as [-> _]. rewrite Hc.
    destruct in_run; [now apply IH|]. cbn [closes].
    change (Ascii.eqb " " "]") with false.
    change (Ascii.eqb " " newline) with false. now apply IH.
  - cbn [closes]. now rewrite IH.
Qed.

Lemma bracket_free_collapse_spaces (s : string) (in_run : bool) :
  one_line s = true -> bracket_free s = true ->
  bracket_free (collapse_spaces in_run s) = true.
Proof.
  revert in_run. induction s as [|c s IH]; intros in_run; [reflexivity|].
  cbn [one_line bracket_free collapse_spaces]. intros Hl Hb.
  apply andb_prop in Hl as [Hc Hl]. apply andb_prop in Hb as [Hb Hs].
  destruct (isspace c) eqn:Ec.
  - destruct in_run; [now apply IH|]. cbn [bracket_free].
    change (Ascii.eqb " " "[") with false. cbn [andb negb]. now apply IH.
  - cbn [bracket_free]. rewrite (closes_collapse_spaces s false Hl), Hb.
    now apply IH.
Qed.

Lemma bracket_free_lstrip (s : string) :
  bracket_free s = true -> bracket_free (lstrip s) = true.
Proof.
  induction s as [|c s IH]; [reflexivity|]. cbn [lstrip].
  destruct (isspace c); [|auto]. cbn [bracket_free]. intros H.
  apply andb_prop in H as [_ H]. now apply IH.
Qed.

Lemma closes_rstrip (s : string) : closes (rstrip s) = closes s.
Proof.
  induction s as [|c s IH]; [reflexivity|]. cbn [rstrip closes].
  destruct (rstrip s) as [|c' r] eqn:E.
  - rewrite <- IH. cbn [closes]. destruct (isspace c) eqn:Ec.
    + destruct (space_is_no_bracket c Ec) as [-> _].
      now destruct (Ascii.eqb c newline).
    + cbn [closes]. reflexivity.
  - cbn [closes]. now rewrite <- IH.
Qed.

Lemma bracket_free_rstrip (s : string) :
  bracket_free s = true -> bracket_free (rstrip s) = true.
Proof.
  induction s as [|c s IH]; [reflexivity|]. cbn [bracket_free rstrip].
  intros H. apply andb_prop in H as [Hc Hs]. specialize (IH Hs).
  pose proof (closes_rstrip s) as Hcl.
  destruct (rstrip s) as [|c' r] eqn:E.
  - destruct (isspace c); [reflexivity|]. cbn [bracket_free closes].
    now rewrite andb_false_r.
  - cbn [bracket_free] in *. now rewrite Hcl, Hc, IH.
Qed.

(** Cleaning is idempotent on a transcript without line feeds: cleaning
    the cleaned text changes nothing.  With a line feed between brackets
    it is not: the first pass turns the line feed into a space, and a
    second pass then removes the annotation the first one kept. *)
Theorem clean_transcript_idempotent :
  (forall transcript_text,
      one_line transcript_text = true ->
      clean_transcript (clean_transcript transcript_text)
      = clean_transcript transcript_text)
  /\ clean_transcript ("Hello [soft" ++ String newline "music] world")
     = "Hello [soft music] world"
  /\ clean_transcript "Hello [soft music] world" = "Hello world".
Proof.
  split; [|split; reflexivity].
  intros t Hl.
  assert (E : forall u, clean_transcript u
                        = strip (collapse_spaces false (remove_bracketed false u))).
  { intros u. unfold clean_transcript, re_sub.
    now rewrite (proj2 (re_sub_bracket_from u)), (proj2 (re_sub_spaces_from _)). }
  pose proof (clean_transcript_tidy t) as Ht.
  assert (Hb : bracket_free (clean_transcript t) = true).
  { rewrite E. unfold strip.
    apply bracket_free_rstrip, bracket_free_lstrip,
      bracket_free_collapse_spaces.
    - now apply remove_bracketed_one_line.
    - apply bracket_free_remove_bracketed. }
  rewrite (E (clean_transcript t)).
  rewrite (remove_bracketed_fixed _ Hb).
  pose proof Ht as Ht'. unfold tidy in Ht'.
  apply andb_prop in Ht' as [_ Hs].
  rewrite (collapse_spaces_fixed _ (single_spaced_spaced _ Hs)).
  now apply strip_fixed.
Qed.

Lemma clean_transcript_idempotent_witness :
  clean_transcript (clean_transcript "Hello [Music] world   foo")
  = clean_transcript "Hello [Music] world   foo".
Proof.
  apply (proj1 clean_transcript_idempotent). reflexivity.
Defined.

(** ** What a request costs *)

(** Every admitted request is counted, whatever its body: a request that
    is then refused with 400 or fails with 500, and a batch of five URLs,
    each add exactly one timestamp, [now], to the list the limiter keeps
    after its purge. *)
Theorem every_admitted_request_is_counted (REQUEST_DELAY : Q)
    (MAX_REQUESTS_PER_MINUTE : Z) (api : transcript_api)
    (requests_get : string -> outcome soup) (type_error : json -> string)
    (st : list Q) (now : Q) (utcnow : string) (get_json : outcome json) :
  fst (rate_limit_check MAX_REQUESTS_PER_MINUTE now st) = true ->
  let counted := (filter (within_minute now) st ++ [now])%list in
  fst (Transcript.get_transcript REQUEST_DELAY MAX_REQUESTS_PER_MINUTE api
         requests_get type_error st now utcnow get_json) = counted
  /\ fst (Transcript.get_batch_transcripts REQUEST_DELAY
            MAX_REQUESTS_PER_MINUTE api type_error st now utcnow get_json)
     = counted
  /\ fst (App.get_transcript REQUEST_DELAY api requests_get
            MAX_REQUESTS_PER_MINUTE type_error st now utcnow get_json)
     = counted.
Proof.
  intros Hadm. cbv zeta.
  unfold Transcript.get_transcript, App.get_transcript.
  rewrite !route_list, batch_list, rate_limit_check_state, Hadm.
  repeat split.
Qed.

Lemma every_admitted_request_is_counted_witness :
  fst (App.get_transcript 1 no_captions (fun _ => Raises "timed out") 30
         (fun _ => "") [] 5 "2024-01-01T00:00:05" (Returns JNull))
  = [5%Q].
Proof.
  refine (proj2 (proj2
            (every_admitted_request_is_counted 1 30 no_captions
               (fun _ => Raises "timed out") (fun _ => "") [] 5
               "2024-01-01T00:00:05" (Returns JNull) _)));
    reflexivity.
Defined.
